(** * go_quest: the fetch-and-normalize core of [youtube.py]

    A shallow embedding of [src/youtube.py]: the JSON payloads of the
    YouTube Data API, the Python built-ins the module applies to them,
    the rate limiter, the four fetchers of [YouTubeAPI], the two
    normalizers and [YouTubeDataFetcher.fetch_data]; followed by the
    properties of the specification stated and proved over it. *)

From Stdlib Require Import ZArith Ascii String.
From stdpp Require Import gmap strings pretty list.

Set Warnings "-register-all".

(** ** Python values *)

(** A decoded JSON document, as [json.loads] hands it to the module.
    Objects are Python dicts keyed by strings.  Non-integral numbers are
    left out: no field read by the module carries one. *)
Inductive json : Type :=
  | JNull
  | JBool (b : bool)
  | JInt (n : Z)
  | JStr (s : string)
  | JArr (l : list json)
  | JObj (m : gmap string json).

(** [datetime.datetime]; [tzinfo] is the UTC offset in seconds of an aware
    value and [None] for a naive one. *)
Record datetime : Type := mk_datetime {
  year : Z; month : Z; day : Z;
  hour : Z; minute : Z; second : Z; microsecond : Z;
  tzinfo : option Z
}.

(** [x.replace(tzinfo=None)] *)
Definition replace_tzinfo_None (x : datetime) : datetime :=
  mk_datetime (year x) (month x) (day x)
              (hour x) (minute x) (second x) (microsecond x) None.

(** The exceptions that can travel through the module. *)
Inductive exn : Type :=
  | HttpError (reason : string)        (* googleapiclient.errors.HttpError *)
  | TransportError (reason : string)   (* any other failure of [execute()] *)
  | KeyError (key : json)
  | IndexError
  | TypeError
  | AttributeError
  | ValueError (msg : string)
  | ValidationError (model : string).  (* pydantic *)

(** The result of running a piece of Python: a value, an exception, or
    [OutOfFuel] when the bound put on [while True] was reached first. *)
Inductive outcome (A : Type) : Type :=
  | Ret (a : A)
  | Raise (e : exn)
  | OutOfFuel.
Arguments Ret {A} a.
Arguments Raise {A} e.
Arguments OutOfFuel {A}.

#[global] Instance outcome_ret : MRet outcome := λ A a, Ret a.
#[global] Instance outcome_bind : MBind outcome := λ A B f m,
  match m with
  | Ret a => f a
  | Raise e => Raise e
  | OutOfFuel => OutOfFuel
  end.
#[global] Instance outcome_fmap : FMap outcome := λ A B f m,
  match m with
  | Ret a => Ret (f a)
  | Raise e => Raise e
  | OutOfFuel => OutOfFuel
  end.

(** [for x in xs: ys.append(f(x))], stopping at the first exception. *)
Fixpoint for_each {A B : Type} (f : A → outcome B) (xs : list A)
  : outcome (list B) :=
  match xs with
  | [] => Ret []
  | x :: xs' => y ← f x; ys ← for_each f xs'; Ret (y :: ys)
  end.

(** ** Python built-ins on JSON values *)

(** [bool(j)] *)
Definition truthy (j : json) : bool :=
  match j with
  | JNull => false
  | JBool b => b
  | JInt n => negb (n =? 0)%Z
  | JStr s => negb (String.eqb s "")
  | JArr l => match l with [] => false | _ => true end
  | JObj m => negb (bool_decide (m = ∅))
  end.

(** [j[k]] for a string key *)
Definition getitem (j : json) (k : string) : outcome json :=
  match j with
  | JObj m => match m !! k with
              | Some v => Ret v
              | None => Raise (KeyError (JStr k))
              end
  | _ => Raise TypeError
  end.

(** [j[i]] for a non-negative integer *)
Definition getindex (j : json) (i : nat) : outcome json :=
  match j with
  | JArr l => match l !! i with
              | Some v => Ret v
              | None => Raise IndexError
              end
  | JStr s => match String.get i s with
              | Some c => Ret (JStr (String c ""))
              | None => Raise IndexError
              end
  | JObj _ => Raise (KeyError (JInt (Z.of_nat i)))
  | _ => Raise TypeError
  end.

(** [j.get(k, default)] *)
Definition dict_get (j : json) (k : string) (dflt : json) : outcome json :=
  match j with
  | JObj m => Ret (default dflt (m !! k))
  | _ => Raise AttributeError
  end.

(** [k in j], used once on a value that has already answered a string
    subscript and therefore is a dict. *)
Definition contains_key (j : json) (k : string) : outcome bool :=
  match j with
  | JObj m => Ret (bool_decide (is_Some (m !! k)))
  | _ => Raise TypeError
  end.

Fixpoint chars (s : string) : list json :=
  match s with
  | EmptyString => []
  | String c s' => JStr (String c "") :: chars s'
  end.

(** The elements visited by [for item in j].  A dict yields its keys; the
    map does not record insertion order, which no loop of the module can
    observe, since each one subscripts the item with a string first. *)
Definition py_iter (j : json) : outcome (list json) :=
  match j with
  | JArr l => Ret l
  | JStr s => Ret (chars s)
  | JObj m => Ret (JStr <$> (map_to_list m).*1)
  | _ => Raise TypeError
  end.

(** [s.replace(old, new)] for a one-character [old] *)
Fixpoint str_replace (old : ascii) (new : string) (s : string) : string :=
  match s with
  | EmptyString => EmptyString
  | String c s' =>
      if Ascii.eqb c old then new +:+ str_replace old new s'
      else String c (str_replace old new s')
  end.

(** [sep.join(xs)]: every element must be a [str] *)
Fixpoint str_join (sep : string) (xs : list json) : outcome string :=
  match xs with
  | [] => Ret ""
  | JStr s :: xs' =>
      match xs' with
      | [] => Ret s
      | _ => rest ← str_join sep xs'; Ret (s +:+ sep +:+ rest)
      end
  | _ => Raise TypeError
  end.

(** [s.split(sep)] for a one-character [sep]; the result is never empty. *)
Fixpoint str_split (sep : ascii) (s : string) : list string :=
  match s with
  | EmptyString => [""]
  | String c s' =>
      if Ascii.eqb c sep then "" :: str_split sep s'
      else match str_split sep s' with
           | h :: t => String c h :: t
           | [] => [String c ""]
           end
  end.

(** What [for item in response["items"]] runs over. *)
Definition response_items (response : json) : outcome (list json) :=
  getitem response "items" ≫= py_iter.

(** [xs[-1]] *)
Definition index_last {A : Type} (xs : list A) : outcome A :=
  match last xs with
  | Some x => Ret x
  | None => Raise IndexError
  end.

(** [xs[:n]] for any integer [n]: a negative bound counts from the end. *)
Definition slice_to {A : Type} (xs : list A) (n : Z) : list A :=
  if (0 <=? n)%Z then take (Z.to_nat n) xs
  else take (length xs - Z.to_nat (- n))%nat xs.

(** [range(start, stop, step)] for a positive [step]; [fuel] bounds the
    number of elements and [stop] is always enough. *)
Fixpoint range_from (fuel start stop step : nat) : list nat :=
  match fuel with
  | O => []
  | S fuel' =>
      if (start <? stop)%nat
      then start :: range_from fuel' (start + step)%nat stop step
      else []
  end.

Definition py_range (start stop step : nat) : list nat :=
  range_from stop start stop step.

(** ** What the module takes from its libraries

    [datetime.fromisoformat], [int] on a [str] and pydantic's [HttpUrl]
    check are library code; the module's behaviour is stated for every
    implementation of them.  [None] stands for [ValueError]. *)
Class Platform : Type := {
  fromisoformat : string → option datetime;
  int_of_string : string → option Z;
  valid_http_url : string → bool
}.

(** The remote API behind [self.youtube]: one request, one reply, and a
    service state that may change with every call. *)
Inductive request : Type :=
  | SearchChannelList (q : string)
      (* search().list(q=handle, type="channel", part="id") *)
  | SearchVideoList (channelId : json) (maxResults : Z) (pageToken : json)
      (* search().list(channelId=, part="id", maxResults=, pageToken=, type="video") *)
  | VideosList (id : string)
      (* videos().list(part="snippet,statistics,contentDetails", id=) *)
  | CommentThreadsList (videoId : json) (maxResults : Z).
      (* commentThreads().list(part="snippet,replies", videoId=, maxResults=) *)

Definition reply : Type := exn + json.

Class Service (W : Type) : Type :=
  execute : request → W → reply * W.

(** ** Constants and records of the module *)

Definition UTC_Z : string := "+00:00".
Definition ONE_MINUTE : Z := 60.
Definition MAX_REQUESTS_PER_MINUTE : Z := 60.

(** The dict built by [_parse_video_response].  A field copied from the
    payload unchecked keeps its JSON value. *)
Module VideoDict.
Record t : Type := mk {
  video_id : json;
  title : json;
  description : json;
  published_date : datetime;
  view_count : Z;
  like_count : Z;
  comment_count : Z;
  duration : json;
  thumbnail_url : json
}.
End VideoDict.

(** One dict of the list built by [_parse_comment_response]; [reply_to]
    is [JNull] for Python's [None]. *)
Module CommentDict.
Record t : Type := mk {
  video_id : json;
  comment_id : json;
  text : json;
  author : json;
  published_date : datetime;
  like_count : Z;
  reply_to : json
}.
End CommentDict.

(** [class Video(BaseModel)] after validation *)
Module Video.
Record t : Type := mk {
  video_id : string;
  title : string;
  description : option string;
  published_date : datetime;
  view_count : Z;
  like_count : Z;
  comment_count : Z;
  duration : string;
  thumbnail_url : string
}.
End Video.

(** [class Comment(BaseModel)] after validation *)
Module Comment.
Record t : Type := mk {
  video_id : string;
  comment_id : string;
  text : string;
  author : string;
  published_date : datetime;
  like_count : Z;
  reply_to : option string
}.
End Comment.

(** [class YouTubeChannelInput(BaseModel)] *)
Module YouTubeChannelInput.
Record t : Type := mk { url : string; handle : string }.
End YouTubeChannelInput.

(** ** ResponseNormalizer: the two parsers and the pydantic models *)

Section Normalizer.
Context `{!Platform}.

(** [int(j)] *)
Definition py_int (j : json) : outcome Z :=
  match j with
  | JInt n => Ret n
  | JBool b => Ret (if b then 1 else 0)%Z
  | JStr s => match int_of_string s with
              | Some n => Ret n
              | None => Raise (ValueError "invalid literal for int()")
              end
  | _ => Raise TypeError
  end.

(** [datetime.fromisoformat(j.replace("Z", UTC_Z))] *)
Definition parse_timestamp (j : json) : outcome datetime :=
  match j with
  | JStr s => match fromisoformat (str_replace "Z" UTC_Z s) with
              | Some d => Ret d
              | None => Raise (ValueError "Invalid isoformat string")
              end
  | _ => Raise AttributeError
  end.

(** [YouTubeAPI._parse_video_response]; the entries of the dict literal
    are evaluated in the order they are written. *)
Definition _parse_video_response (item : json) : outcome VideoDict.t :=
  video_id ← getitem item "id";
  title ← getitem item "snippet" ≫= λ s, getitem s "title";
  description ← getitem item "snippet" ≫= λ s, dict_get s "description" (JStr "");
  published_date ← getitem item "snippet" ≫= λ s,
                   getitem s "publishedAt" ≫= parse_timestamp;
  view_count ← getitem item "statistics" ≫= λ s,
               dict_get s "viewCount" (JInt 0) ≫= py_int;
  like_count ← getitem item "statistics" ≫= λ s,
               dict_get s "likeCount" (JInt 0) ≫= py_int;
  comment_count ← getitem item "statistics" ≫= λ s,
                  dict_get s "commentCount" (JInt 0) ≫= py_int;
  duration ← getitem item "contentDetails" ≫= λ c, getitem c "duration";
  thumbnail_url ← getitem item "snippet" ≫= λ s, getitem s "thumbnails" ≫= λ t,
                  getitem t "high" ≫= λ h, getitem h "url";
  Ret (VideoDict.mk video_id title description published_date
                    view_count like_count comment_count duration thumbnail_url).

(** The dict appended for the top-level comment of a thread. *)
Definition parse_top_level (item : json) (video_id : json)
  : outcome CommentDict.t :=
  comment ← getitem item "snippet" ≫= λ s, getitem s "topLevelComment" ≫= λ t,
            getitem t "snippet";
  comment_id ← getitem item "id";
  text ← getitem comment "textDisplay";
  author ← getitem comment "authorDisplayName";
  published_date ← getitem comment "publishedAt" ≫= parse_timestamp;
  like_count ← getitem comment "likeCount" ≫= py_int;
  Ret (CommentDict.mk video_id comment_id text author published_date
                      like_count JNull).

(** The dict appended for one reply of the thread [item]. *)
Definition parse_reply (item : json) (video_id : json) (reply : json)
  : outcome CommentDict.t :=
  reply_snippet ← getitem reply "snippet";
  comment_id ← getitem reply "id";
  text ← getitem reply_snippet "textDisplay";
  author ← getitem reply_snippet "authorDisplayName";
  published_date ← getitem reply_snippet "publishedAt" ≫= parse_timestamp;
  like_count ← getitem reply_snippet "likeCount" ≫= py_int;
  reply_to ← getitem item "id";
  Ret (CommentDict.mk video_id comment_id text author published_date
                      like_count reply_to).

(** [YouTubeAPI._parse_comment_response] *)
Definition _parse_comment_response (item : json) (video_id : json)
  : outcome (list CommentDict.t) :=
  top ← parse_top_level item video_id;
  has_replies ← contains_key item "replies";
  if has_replies : bool then
    replies ← getitem item "replies" ≫= λ r, getitem r "comments" ≫= py_iter;
    rest ← for_each (parse_reply item video_id) replies;
    Ret (top :: rest)
  else Ret [top].

(** A [str] field of a pydantic model accepts a string only. *)
Definition as_str (j : json) : option string :=
  match j with JStr s => Some s | _ => None end.

(** An [Optional[str]] field also accepts [None]. *)
Definition as_optional_str (j : json) : option (option string) :=
  match j with
  | JStr s => Some (Some s)
  | JNull => Some None
  | _ => None
  end.

(** [Field(..., min_length=11, max_length=11)]; one [ascii] stands for
    one character. *)
Definition length_is_11 (s : string) : bool :=
  (11 <=? String.length s)%nat && (String.length s <=? 11)%nat.

(** [Field(ge=0)] *)
Definition ge_0 (n : Z) : bool := (0 <=? n)%Z.

(** [Video] built from the keywords of the dict [v], then [model_dump()] *)
Definition Video_validate (v : VideoDict.t) : outcome Video.t :=
  match as_str (VideoDict.video_id v), as_str (VideoDict.title v),
        as_optional_str (VideoDict.description v),
        as_str (VideoDict.duration v), as_str (VideoDict.thumbnail_url v) with
  | Some video_id, Some title, Some description, Some duration, Some thumbnail_url =>
      if length_is_11 video_id && ge_0 (VideoDict.view_count v)
         && ge_0 (VideoDict.like_count v) && ge_0 (VideoDict.comment_count v)
      then Ret (Video.mk video_id title description (VideoDict.published_date v)
                         (VideoDict.view_count v) (VideoDict.like_count v)
                         (VideoDict.comment_count v) duration thumbnail_url)
      else Raise (ValidationError "Video")
  | _, _, _, _, _ => Raise (ValidationError "Video")
  end.

(** [Comment] built from the keywords of the dict [c], then [model_dump()] *)
Definition Comment_validate (c : CommentDict.t) : outcome Comment.t :=
  match as_str (CommentDict.video_id c), as_str (CommentDict.comment_id c),
        as_str (CommentDict.text c), as_str (CommentDict.author c),
        as_optional_str (CommentDict.reply_to c) with
  | Some video_id, Some comment_id, Some text, Some author, Some reply_to =>
      if length_is_11 video_id && ge_0 (CommentDict.like_count c)
      then Ret (Comment.mk video_id comment_id text author
                           (CommentDict.published_date c)
                           (CommentDict.like_count c) reply_to)
      else Raise (ValidationError "Comment")
  | _, _, _, _, _ => Raise (ValidationError "Comment")
  end.

(** [YouTubeChannelInput(url=..., handle=...)]: [url] is an [HttpUrl],
    [handle] has [min_length=1]. *)
Definition YouTubeChannelInput_validate (url handle : string)
  : outcome YouTubeChannelInput.t :=
  if valid_http_url url && (1 <=? String.length handle)%nat
  then Ret (YouTubeChannelInput.mk url handle)
  else Raise (ValidationError "YouTubeChannelInput").

(** [comment["published_date"] = comment["published_date"].replace(tzinfo=None)] *)
Definition Comment_naive (c : Comment.t) : Comment.t :=
  Comment.mk (Comment.video_id c) (Comment.comment_id c) (Comment.text c)
             (Comment.author c) (replace_tzinfo_None (Comment.published_date c))
             (Comment.like_count c) (Comment.reply_to c).

(** One row of [videos["published_date"].apply(lambda x: x.replace(tzinfo=None))] *)
Definition Video_naive (v : Video.t) : Video.t :=
  Video.mk (Video.video_id v) (Video.title v) (Video.description v)
           (replace_tzinfo_None (Video.published_date v))
           (Video.view_count v) (Video.like_count v) (Video.comment_count v)
           (Video.duration v) (Video.thumbnail_url v).
End Normalizer.

(** ** The program state and its monad *)

Inductive level : Type := WARNING | ERROR.

Inductive message : Type :=
  | Error_fetching_videos (e : exn)
      (* f"Error fetching videos: {e}" *)
  | Failed_to_fetch_comments (video_id : json) (e : exn).
      (* f"Failed to fetch comments for {video_id}: {e}" *)

Section Core.
Context {W : Type} `{!Service W} `{!Platform}.

(** What a run can change: the remote service, the call count kept by
    the [limits] decorator of [rate_limited_api_call], the requests sent
    so far with their replies, and the log. *)
Record state : Type := mk_state {
  remote : W;
  limiter_calls : nat;
  trace : list (request * reply);
  log : list (level * message)
}.

Definition M (A : Type) : Type := state → outcome A * state.

#[global] Instance M_ret : MRet M := λ A a st, (Ret a, st).
#[global] Instance M_bind : MBind M := λ A B f m st,
  match m st with
  | (Ret a, st') => f a st'
  | (Raise e, st') => (Raise e, st')
  | (OutOfFuel, st') => (OutOfFuel, st')
  end.

Definition lift {A : Type} (o : outcome A) : M A := λ st, (o, st).

Definition raise {A : Type} (e : exn) : M A := λ st, (Raise e, st).

Definition logger (lv : level) (msg : message) : M unit := λ st,
  (Ret (), mk_state (remote st) (limiter_calls st) (trace st)
                    (log st ++ [(lv, msg)])).

(** [request.execute()]: the request goes out and the reply comes back. *)
Definition call (req : request) : M json := λ st,
  let '(r, w) := execute req (remote st) in
  (match r with inl e => Raise e | inr j => Ret j end,
   mk_state w (limiter_calls st) (trace st ++ [(req, r)]) (log st)).

(** [rate_limited_api_call(func)].  Its decorators [sleep_and_retry] and
    [limits] come from the [ratelimit] package: they count the call
    against the quota of [MAX_REQUESTS_PER_MINUTE] calls per [ONE_MINUTE],
    make it wait while the quota is used up, and never drop it or raise.
    The model keeps the count and lets [func()] run; the time spent
    waiting is not part of the state. *)
Definition rate_limited_api_call {A : Type} (func : M A) : M A := λ st,
  func (mk_state (remote st) (S (limiter_calls st)) (trace st) (log st)).

(** [try: body / except HttpError as e: handler] *)
Definition try_except_HttpError {A : Type} (body : M A)
    (handler : string → M A) : M A := λ st,
  match body st with
  | (Raise (HttpError reason), st') => handler reason st'
  | r => r
  end.

(** ** ChannelResolver *)

(** [YouTubeAPI.get_channel_id] *)
Definition get_channel_id (handle : string) : M json :=
  response ← rate_limited_api_call (call (SearchChannelList handle));
  items ← lift (dict_get response "items" JNull);
  if negb (truthy items) then raise (ValueError ("No channel found: " +:+ handle))
  else lift (getitem response "items" ≫= λ l, getindex l 0 ≫= λ i,
             getitem i "id" ≫= λ d, getitem d "channelId").

(** ** VideoEnumerator *)

(** The inner [fetch_videos(token)] *)
Definition fetch_videos (channel_id : json) (token : json) : M json :=
  call (SearchVideoList channel_id 50 token).

(** [[item["id"]["videoId"] for item in response["items"]]] *)
Definition page_ids (response : json) : outcome (list json) :=
  items ← response_items response;
  for_each (λ item, getitem item "id" ≫= λ i, getitem i "videoId") items.

(** The statements of the [try] block of [get_videos] up to the test of
    the token: the new value of [videos] and of [next_page_token]. *)
Definition get_videos_page (channel_id : json) (videos : list json)
    (next_page_token : json) : M (list json * json) :=
  response ← rate_limited_api_call (fetch_videos channel_id next_page_token);
  ids ← lift (page_ids response);
  token ← lift (dict_get response "nextPageToken" JNull);
  mret (videos ++ ids, token).

(** The [while True] of [get_videos], at most [fuel] times round. *)
Fixpoint get_videos_loop (fuel : nat) (channel_id : json)
    (videos : list json) (next_page_token : json) : M (list json) :=
  match fuel with
  | O => λ st, (OutOfFuel, st)
  | S fuel' =>
      page ← try_except_HttpError
               (get_videos_page channel_id videos next_page_token)
               (λ reason,
                  logger ERROR (Error_fetching_videos (HttpError reason));;
                  raise (HttpError reason));
      if truthy page.2
      then get_videos_loop fuel' channel_id page.1 page.2
      else mret page.1
  end.

(** [YouTubeAPI.get_videos] *)
Definition get_videos (fuel : nat) (channel_id : json) : M (list json) :=
  get_videos_loop fuel channel_id [] JNull.

(** ** VideoDetailFetcher *)

(** [for item in response["items"]: video_data.append(...)] *)
Definition parse_videos (response : json) : outcome (list VideoDict.t) :=
  items ← response_items response;
  for_each _parse_video_response items.

(** One round of the [for] of [get_video_details]: the request for the
    chunk starting at [i] and the parsed items of its reply. *)
Definition get_video_details_chunk (video_ids : list json) (i : nat)
  : M (list VideoDict.t) :=
  let chunk := take 50 (drop i video_ids) in
  ids ← lift (str_join "," chunk);
  response ← call (VideosList ids);
  lift (parse_videos response).

Fixpoint get_video_details_loop (video_ids : list json) (starts : list nat)
    (video_data : list VideoDict.t) : M (list VideoDict.t) :=
  match starts with
  | [] => mret video_data
  | i :: starts' =>
      parsed ← get_video_details_chunk video_ids i;
      get_video_details_loop video_ids starts' (video_data ++ parsed)
  end.

(** [YouTubeAPI.get_video_details] *)
Definition get_video_details (video_ids : list json) : M (list VideoDict.t) :=
  get_video_details_loop video_ids (py_range 0 (length video_ids) 50) [].

(** ** CommentFetcher *)

(** The [for] of [get_comments]: the value of [comments] when the loop
    is left, and how it was left. *)
Fixpoint get_comments_loop (items : list json) (video_id : json)
    (max_comments : Z) (comments : list CommentDict.t)
  : list CommentDict.t * outcome unit :=
  match items with
  | [] => (comments, Ret ())
  | item :: items' =>
      match _parse_comment_response item video_id with
      | Ret parsed =>
          let comments' := comments ++ parsed in
          if (max_comments <=? Z.of_nat (length comments'))%Z
          then (comments', Ret ())
          else get_comments_loop items' video_id max_comments comments'
      | Raise e => (comments, Raise e)
      | OutOfFuel => (comments, OutOfFuel)
      end
  end.

(** The [try] block of [get_comments]: [comments] starts empty. *)
Definition get_comments_try (video_id : json) (max_comments : Z)
  : state → (list CommentDict.t * outcome unit) * state := λ st,
  match call (CommentThreadsList video_id (Z.min 100 max_comments)) st with
  | (Ret response, st') =>
      (match response_items response with
       | Ret items => get_comments_loop items video_id max_comments []
       | Raise e => ([], Raise e)
       | OutOfFuel => ([], OutOfFuel)
       end, st')
  | (Raise e, st') => (([], Raise e), st')
  | (OutOfFuel, st') => (([], OutOfFuel), st')
  end.

(** [YouTubeAPI.get_comments] *)
Definition get_comments (video_id : json) (max_comments : Z)
  : M (list CommentDict.t) := λ st,
  match get_comments_try video_id max_comments st with
  | ((comments, Ret _), st') => (Ret (slice_to comments max_comments), st')
  | ((comments, Raise (HttpError reason)), st') =>
      (logger WARNING (Failed_to_fetch_comments video_id (HttpError reason));;
       mret (slice_to comments max_comments)) st'
  | ((_, Raise e), st') => (Raise e, st')
  | ((_, OutOfFuel), st') => (OutOfFuel, st')
  end.

(** ** DataAssembler *)

(** [for video_id in video_ids: comments_raw.extend(get_comments(...))] *)
Fixpoint fetch_comments (video_ids : list json) (max_comments : Z)
    (comments_raw : list CommentDict.t) : M (list CommentDict.t) :=
  match video_ids with
  | [] => mret comments_raw
  | video_id :: video_ids' =>
      fetched ← get_comments video_id max_comments;
      fetch_comments video_ids' max_comments (comments_raw ++ fetched)
  end.

(** [videos["published_date"] = videos["published_date"].apply(...)]: a
    frame built from no rows has no columns, and selecting one raises. *)
Definition videos_naive (videos : list Video.t) : outcome (list Video.t) :=
  match videos with
  | [] => Raise (KeyError (JStr "published_date"))
  | _ => Ret (Video_naive <$> videos)
  end.

(** The body of [fetch_data] once the channel is resolved; a data frame
    is the list of its rows. *)
Definition assemble (fuel : nat) (channel_id : json) (max_comments : Z)
  : M (list Video.t * list Comment.t) :=
  video_ids ← get_videos fuel channel_id;
  videos_raw ← get_video_details video_ids;
  videos ← lift (for_each Video_validate videos_raw);
  comments_raw ← fetch_comments video_ids max_comments [];
  comments ← lift (for_each (λ c, Comment_naive <$> Comment_validate c)
                            comments_raw);
  videos ← lift (videos_naive videos);
  mret (videos, comments).

(** [YouTubeDataFetcher.fetch_data] *)
Definition fetch_data (fuel : nat) (channel_url : string) (max_comments : Z)
  : M (list Video.t * list Comment.t) :=
  handle ← lift (index_last (str_split "@" channel_url));
  channel_input ← lift (YouTubeChannelInput_validate channel_url handle);
  channel_id ← get_channel_id (YouTubeChannelInput.handle channel_input);
  assemble fuel channel_id max_comments.
End Core.

Arguments state W : clear implicits.
Arguments M W A : clear implicits.

(** ** The command line: [YouTubeAPI.__init__], [setup_cli] and [main] *)

(** [YouTubeAPI.__init__]: the test of the key.  The client that
    [build] then makes is the remote service of the state. *)
Definition YouTubeAPI_init (api_key : string) : outcome unit :=
  if String.eqb api_key "" then Raise (ValueError "Invalid API key")
  else Ret ().

(** The namespace [parser.parse_args()] returns; [api_key] is [None]
    when [--api-key] is not given. *)
Module Args.
Record t : Type := mk {
  channel_url : string;
  output : string;
  max_comments : Z;
  verbose : bool;
  api_key : option string
}.
End Args.

(** The levels of the [logging] module. *)
Module logging.
Inductive level : Type := NOTSET | DEBUG | INFO | WARNING | ERROR | CRITICAL.
End logging.

(** [logger.setLevel(logging.DEBUG)] at import time *)
Definition module_level : logging.level := logging.DEBUG.

(** [a or b] on two optional strings: [a] when it is a non-empty string. *)
Definition str_or (a b : option string) : option string :=
  match a with
  | Some s => if String.eqb s "" then b else a
  | None => b
  end.

(** How [setup_cli] ends: [sys.exit(code)], or the tuple it returns. *)
Inductive setup : Type :=
  | Setup_exit (code : Z)
  | Setup_ok (api_key channel_url : string) (max_comments : Z) (output : string).

(** [setup_cli], from the parsed arguments, the value of
    [os.getenv("YOUTUBE_API_KEY")] and the level of the logger; it gives
    back the level it leaves. *)
Definition setup_cli (args : Args.t) (env_key : option string)
    (lvl : logging.level) : setup * logging.level :=
  match str_or (Args.api_key args) env_key with
  | Some api_key =>
      if String.eqb api_key "" then (Setup_exit 1, lvl)
      else (Setup_ok api_key (Args.channel_url args) (Args.max_comments args)
                     (Args.output args),
            if Args.verbose args then logging.DEBUG else lvl)
  | None => (Setup_exit 1, lvl)
  end.

(** What [main] logs itself. *)
Inductive main_message : Type :=
  | No_API_key_provided
  | Data_exported_to (output_file : string)
  | Error_ (e : exn).

(** How the process ends: [sys.exit(code)], or [main] returns. *)
Inductive ending : Type :=
  | Exited (code : Z)
  | Returned.

Section Main.
Context {W : Type} `{!Service W} `{!Platform}.

(** A run of [main]: its end ([None] when the bound on the loop of
    [get_videos] was reached first), the file written and its two sheets,
    the messages of [main], and the state the fetch left. *)
Record run : Type := mk_run {
  ended : option ending;
  exported : option (string * (list Video.t * list Comment.t));
  main_log : list main_message;
  final : state W
}.


End Main.

Arguments run W : clear implicits.

(** ** Payloads, a scripted service and a small platform, to run the code *)

(** A JSON object from its members. *)
Definition obj (members : list (string * json)) : json :=
  JObj (list_to_map members).

(** A [snippet] of a comment resource. *)
Definition comment_snippet (text author publishedAt : string) (likeCount : Z)
  : json :=
  obj [("textDisplay", JStr text); ("authorDisplayName", JStr author);
       ("publishedAt", JStr publishedAt); ("likeCount", JInt likeCount)].

(** A comment resource, as found under [replies.comments]. *)
Definition comment_resource (id : string) (snippet : json) : json :=
  obj [("id", JStr id); ("snippet", snippet)].

(** A comment-thread resource without a [replies] member. *)
Definition thread_resource (id : string) (top_snippet : json) : json :=
  obj [("id", JStr id);
       ("snippet", obj [("topLevelComment", obj [("snippet", top_snippet)])])].

(** A comment-thread resource with its [replies]. *)
Definition thread_with_replies (id : string) (top_snippet : json)
    (replies : list json) : json :=
  obj [("id", JStr id);
       ("snippet", obj [("topLevelComment", obj [("snippet", top_snippet)])]);
       ("replies", obj [("comments", JArr replies)])].

(** What the API holds about one comment. *)
Record comment_source : Type := mk_comment_source {
  src_id : string;
  src_text : string;
  src_author : string;
  src_publishedAt : string;
  src_likeCount : Z
}.

Definition source_snippet (c : comment_source) : json :=
  comment_snippet (src_text c) (src_author c) (src_publishedAt c) (src_likeCount c).

Definition source_resource (c : comment_source) : json :=
  comment_resource (src_id c) (source_snippet c).

(** The dict expected for the comment [c] published at [d]. *)
Definition source_dict (video_id comment_id reply_to : json)
    (c : comment_source) (d : datetime) : CommentDict.t :=
  CommentDict.mk video_id comment_id (JStr (src_text c)) (JStr (src_author c))
                 d (src_likeCount c) reply_to.

(** A thread as the API sends it: [replies] is there only when the
    thread has some. *)
Definition source_thread (thread_id : string) (top : comment_source)
    (replies : list comment_source) : json :=
  match replies with
  | [] => thread_resource thread_id (source_snippet top)
  | _ => thread_with_replies thread_id (source_snippet top)
                             (source_resource <$> replies)
  end.

(** A video resource with the given [statistics] object. *)
Definition video_resource (id title publishedAt duration thumbnail : string)
    (statistics : json) : json :=
  obj [("id", JStr id);
       ("snippet", obj [("title", JStr title); ("publishedAt", JStr publishedAt);
                        ("thumbnails", obj [("high", obj [("url", JStr thumbnail)])])]);
       ("statistics", statistics);
       ("contentDetails", obj [("duration", JStr duration)])].

(** One page of a video search. *)
Definition search_item (videoId : json) : json :=
  obj [("id", obj [("videoId", videoId)])].

Definition search_page (ids : list json) (nextPageToken : option string) : json :=
  match nextPageToken with
  | Some t => obj [("items", JArr (search_item <$> ids)); ("nextPageToken", JStr t)]
  | None => obj [("items", JArr (search_item <$> ids))]
  end.

(** A service that answers from a script, whatever the request, and
    fails once the script is used up. *)
#[global] Instance scripted : Service (list reply) := λ _ script,
  match script with
  | r :: script' => (r, script')
  | [] => (inl (TransportError "script exhausted"), [])
  end.

Module Fixture.
Definition digit (c : ascii) : option Z :=
  let n := nat_of_ascii c in
  if (48 <=? n) && (n <=? 57) then Some (Z.of_nat (n - 48)) else None.

Fixpoint digits_from (acc : Z) (s : string) : option Z :=
  match s with
  | EmptyString => Some acc
  | String c s' => d ← digit c; digits_from (10 * acc + d)%Z s'
  end.

(** A non-empty run of decimal digits. *)
Definition digits (s : string) : option Z :=
  match s with
  | EmptyString => None
  | _ => digits_from 0%Z s
  end.

(** Decimal literals with an optional sign. *)
Definition int_of_string (s : string) : option Z :=
  match s with
  | String "-" s' => Z.opp <$> digits s'
  | String "+" s' => digits s'
  | _ => digits s
  end.

Definition field (s : string) (start len : nat) : option Z :=
  digits (String.substring start len s).

Definition is_char (s : string) (i : nat) (c : ascii) : bool :=
  match String.get i s with
  | Some c' => Ascii.eqb c c'
  | None => false
  end.

(** The offset [+HH:MM] or [-HH:MM] that ends [s], in seconds. *)
Definition offset (s : string) : option (option Z) :=
  match String.length s with
  | 19 => Some None
  | 25 =>
      hh ← field s 20 2; mm ← field s 23 2;
      if is_char s 22 ":" then
        if is_char s 19 "+" then Some (Some (hh * 3600 + mm * 60)%Z)
        else if is_char s 19 "-" then Some (Some (- (hh * 3600 + mm * 60))%Z)
        else None
      else None
  | _ => None
  end.

(** [YYYY-MM-DDTHH:MM:SS] with an optional offset; no range checks. *)
Definition fromisoformat (s : string) : option datetime :=
  y ← field s 0 4; mo ← field s 5 2; d ← field s 8 2;
  h ← field s 11 2; mi ← field s 14 2; sec ← field s 17 2;
  tz ← offset s;
  if is_char s 4 "-" && is_char s 7 "-" && is_char s 10 "T"
     && is_char s 13 ":" && is_char s 16 ":"
  then Some (mk_datetime y mo d h mi sec 0 tz)
  else None.

Definition valid_http_url (s : string) : bool :=
  (String.prefix "http://" s && (8 <=? String.length s))
  || (String.prefix "https://" s && (9 <=? String.length s)).

#[global] Instance platform : Platform :=
  Build_Platform fromisoformat int_of_string valid_http_url.

Definition start (script : list reply) : state (list reply) :=
  mk_state script 0 [] [].

(** [n] distinct 11-character identifiers [v0000000000], [v0000000001], ... *)
Definition pad (n : nat) : string :=
  let s := pretty (N.of_nat n) in
  String.substring 0 (10 - String.length s) "0000000000" +:+ s.

Definition video_ids (first n : nat) : list json :=
  (λ i, JStr ("v" +:+ pad i)) <$> seq first n.

(** Sample payloads *)
Definition video0 : json := JStr "v0000000000".

Definition top0 : json := comment_snippet "first" "ann" "2024-05-01T10:00:00Z" 4.
Definition reply_n (n : nat) : json :=
  comment_resource ("t0.r" +:+ pretty (N.of_nat n))
    (comment_snippet "re" "bob" "2024-05-01T11:00:00Z" 0).

(** A thread with one top-level comment and three replies. *)
Definition thread_1_3 : json :=
  thread_with_replies "t0" top0 [reply_n 1; reply_n 2; reply_n 3].

(** A thread with one top-level comment and two replies. *)
Definition thread_1_2 : json :=
  thread_with_replies "t1" top0 [reply_n 1; reply_n 2].

Definition threads_page (threads : list json) : json :=
  obj [("items", JArr threads)].

Definition date0 (s : Z) (tz : option Z) : datetime :=
  mk_datetime 2024 5 1 10 0 s 0 tz.
Definition date1 : datetime := mk_datetime 2024 5 1 11 0 0 0 (Some 0%Z).

Definition top_dict (id : string) : CommentDict.t :=
  CommentDict.mk video0 (JStr id) (JStr "first") (JStr "ann")
                 (date0 0 (Some 0%Z)) 4 JNull.
Definition reply_dict (top : string) (n : nat) : CommentDict.t :=
  CommentDict.mk video0 (JStr ("t0.r" +:+ pretty (N.of_nat n))) (JStr "re")
                 (JStr "bob") date1 0 (JStr top).

Definition video1 : json := JStr "v0000000001".

(** The comments of [video0] are disabled; [video1] has one thread. *)
Definition script_one_failure : list reply :=
  [inl (HttpError "commentsDisabled"); inr (threads_page [thread_1_2])].

Definition top_dict_of (video : json) (id : string) : CommentDict.t :=
  CommentDict.mk video (JStr id) (JStr "first") (JStr "ann")
                 (date0 0 (Some 0%Z)) 4 JNull.
Definition reply_dict_of (video : json) (top : string) (n : nat) : CommentDict.t :=
  CommentDict.mk video (JStr ("t0.r" +:+ pretty (N.of_nat n))) (JStr "re")
                 (JStr "bob") date1 0 (JStr top).

(** A video whose like counter is hidden. *)
Definition video_without_likes : json :=
  video_resource "v0000000000" "title" "2024-05-01T10:00:00Z" "PT3M"
    "https://i.ytimg.com/vi/x/hq.jpg"
    (obj [("viewCount", JStr "10"); ("commentCount", JStr "2")]).

Definition video_without_likes_dict : VideoDict.t :=
  VideoDict.mk video0 (JStr "title") (JStr "") (date0 0 (Some 0%Z)) 10 0 2
               (JStr "PT3M") (JStr "https://i.ytimg.com/vi/x/hq.jpg").

(** A thread whose top-level comment carries no [likeCount]. *)
Definition thread_without_likes : json :=
  thread_resource "t2"
    (obj [("textDisplay", JStr "first"); ("authorDisplayName", JStr "ann");
          ("publishedAt", JStr "2024-05-01T10:00:00Z")]).

(** A whole run: the channel search, one page with one video, its
    details, and its comment threads. *)
Definition channel_page : json :=
  obj [("items", JArr [obj [("id", obj [("channelId", JStr "UC0")])]])].

Definition script_one_video : list reply :=
  [inr channel_page;
   inr (search_page [video0] None);
   inr (obj [("items", JArr [video_without_likes])]);
   inr (threads_page [thread_1_2])].

Definition video_row : Video.t :=
  Video.mk "v0000000000" "title" (Some "") (date0 0 None) 10 0 2 "PT3M"
           "https://i.ytimg.com/vi/x/hq.jpg".

Definition top_row : Comment.t :=
  Comment.mk "v0000000000" "t1" "first" "ann" (date0 0 None) 4 None.
Definition reply_row (n : nat) : Comment.t :=
  Comment.mk "v0000000000" ("t0.r" +:+ pretty (N.of_nat n)) "re" "bob"
             (mk_datetime 2024 5 1 11 0 0 0 None) 0 (Some "t1").

(** Two pages of a video search, 50 and 30 identifiers. *)
Definition script_two_pages : list reply :=
  [inr (search_page (video_ids 0 50) (Some "CAUQAA"));
   inr (search_page (video_ids 50 30) None)].

(** A first page, then a failure. *)
Definition script_page_then_error : list reply :=
  [inr (search_page (video_ids 0 50) (Some "CAUQAA"));
   inl (HttpError "quotaExceeded")].

(** The replies to two details requests. *)
Definition script_details : list reply :=
  [inr (obj [("items", JArr [video_without_likes])]);
   inr (obj [("items", JArr [])])].

(** The reply to a channel search that found nothing. *)
Definition no_items : gmap string json := list_to_map [("items", JArr [])].

(** A page of two threads: a sound one, then one without [likeCount]. *)
Definition page_with_bad_thread : json :=
  threads_page [thread_1_2; thread_without_likes].

(** The same threads, the unsound one first. *)
Definition page_bad_thread_first : json :=
  threads_page [thread_without_likes; thread_1_3].

(** A channel that has no video. *)
Definition script_empty_channel : list reply :=
  [inr channel_page; inr (search_page [] None)].


End Fixture.

(** ** Vocabulary of the properties *)

(** ["c" in s] *)
Fixpoint str_contains (c : ascii) (s : string) : bool :=
  match s with
  | EmptyString => false
  | String a s' => Ascii.eqb a c || str_contains c s'
  end.

(** The remote answers the video search of [channel_id], started at
    [token], with the given pages: each page but the last carries a
    continuation token, and the next request presents it. *)
Inductive pages_served {W : Type} `{!Service W} (channel_id : json)
  : json → W → list (list json) → W → Prop :=
  | pages_last token w w' response ids next :
      execute (SearchVideoList channel_id 50 token) w = (inr response, w') →
      page_ids response = Ret ids →
      dict_get response "nextPageToken" JNull = Ret next →
      truthy next = false →
      pages_served channel_id token w [ids] w'
  | pages_more token w w' w'' response ids next pages :
      execute (SearchVideoList channel_id 50 token) w = (inr response, w') →
      page_ids response = Ret ids →
      dict_get response "nextPageToken" JNull = Ret next →
      truthy next = true →
      pages_served channel_id next w' pages w'' →
      pages_served channel_id token w (ids :: pages) w''.

(** The chunks [video_ids[i : i + 50]] visited by [get_video_details]. *)
Definition chunks_of (video_ids : list json) : list (list json) :=
  (λ i, take 50 (drop i video_ids)) <$> py_range 0 (length video_ids) 50.

(** A request of [get_video_details] names exactly the identifiers of
    [chunk]. *)
Definition names_chunk (chunk : list json) (sent : request * reply) : Prop :=
  ∃ ids, str_join "," chunk = Ret ids ∧ sent.1 = VideosList ids.

(** The reply to a details request was a payload that parsed to [parsed]. *)
Definition parsed_reply `{!Platform} (sent : request * reply)
    (parsed : list VideoDict.t) : Prop :=
  ∃ response, sent.2 = inr response ∧ parse_videos response = Ret parsed.

(** The replies of a thread item, in API order: none when the item has no
    [replies] member. *)
Definition thread_replies (item : json) : outcome (list json) :=
  has_replies ← contains_key item "replies";
  if has_replies : bool
  then getitem item "replies" ≫= λ r, getitem r "comments" ≫= py_iter
  else Ret [].

(** In a list of comment dicts, every record is a top-level comment or
    answers a top-level comment that stands before it. *)
Definition replies_resolved (comments : list CommentDict.t) : Prop :=
  ∀ i r, comments !! i = Some r →
    CommentDict.reply_to r = JNull ∨
    ∃ j top, j < i ∧ comments !! j = Some top ∧
             CommentDict.reply_to top = JNull ∧
             CommentDict.comment_id top = CommentDict.reply_to r.

(** The state after the request of [get_comments]: the reply is on the
    trace, the rest is as it was. *)
Definition after_comment_request {W : Type} `{!Service W}
    (video_id : json) (max_comments : Z) (st : state W) : state W :=
  let req := CommentThreadsList video_id (Z.min 100 max_comments) in
  mk_state (execute req (remote st)).2 (limiter_calls st)
           (trace st ++ [(req, (execute req (remote st)).1)]) (log st).

(** [isinstance(j, str)] *)
Definition is_str (j : json) : bool :=
  match j with JStr _ => true | _ => false end.

(** In a list of comment rows, a row with a [reply_to] answers a
    top-level row of the same video that stands before it. *)
Definition rows_resolved (comments : list Comment.t) : Prop :=
  ∀ i c parent, comments !! i = Some c → Comment.reply_to c = Some parent →
    ∃ j top, j < i ∧ comments !! j = Some top ∧
             Comment.reply_to top = None ∧
             Comment.comment_id top = parent ∧
             Comment.video_id top = Comment.video_id c.

(** The constraints the two pydantic models declare. *)
Definition Video_ok (v : Video.t) : Prop :=
  String.length (Video.video_id v) = 11 ∧
  (0 ≤ Video.view_count v)%Z ∧ (0 ≤ Video.like_count v)%Z ∧
  (0 ≤ Video.comment_count v)%Z.

Definition Comment_ok (c : Comment.t) : Prop :=
  String.length (Comment.video_id c) = 11 ∧ (0 ≤ Comment.like_count c)%Z.

(** A remote that answers every request with the same page of one video
    and a continuation token. *)
Definition endless : Service unit := λ _ _,
  (inr (search_page [JStr "v0000000000"] (Some "CAUQAA")), ()).

(** In a list of comment dicts, a record is a top-level comment or
    answers a top-level comment of the same video that stands before it. *)
Definition dicts_resolved (comments : list CommentDict.t) : Prop :=
  ∀ i r, comments !! i = Some r →
    CommentDict.reply_to r = JNull ∨
    ∃ j top, j < i ∧ comments !! j = Some top ∧
             CommentDict.reply_to top = JNull ∧
             CommentDict.comment_id top = CommentDict.reply_to r ∧
             CommentDict.video_id top = CommentDict.video_id r.

(** The requests of an enumeration, in order: each is a video search of
    [channel_id] with page size 50; the first presents [token], and each
    later one the continuation token of the reply before it. *)
Fixpoint chained (channel_id token : json) (sent : list (request * reply))
  : Prop :=
  match sent with
  | [] => True
  | (req, r) :: rest =>
      req = SearchVideoList channel_id 50 token ∧
      match rest with
      | [] => True
      | _ => ∃ response next,
               r = inr response ∧
               dict_get response "nextPageToken" JNull = Ret next ∧
               truthy next = true ∧
               chained channel_id next rest
      end
  end.

(** ** Strings *)

Lemma str_app_cons c (s t : string) : String c s +:+ t = String c (s +:+ t).
Proof. reflexivity. Qed.

Lemma str_app_nil (s : string) : "" +:+ s = s.
Proof. reflexivity. Qed.

Lemma str_app_assoc (s t u : string) : s +:+ (t +:+ u) = (s +:+ t) +:+ u.
Proof.
  induction s as [|c s IH]; [done|]. by rewrite !str_app_cons, IH.
Qed.

Lemma str_replace_app old new s t :
  str_replace old new (s +:+ t) = str_replace old new s +:+ str_replace old new t.
Proof.
  induction s as [|c s IH]; [done|].
  rewrite str_app_cons. simpl. rewrite IH.
  destruct (Ascii.eqb c old); [apply str_app_assoc|done].
Qed.

Lemma str_split_nonempty sep s : str_split sep s ≠ [].
Proof.
  destruct s as [|c s]; simpl; [done|].
  destruct (Ascii.eqb c sep); [done|]. by destruct (str_split sep s).
Qed.

Lemma str_split_no_sep sep s :
  str_contains sep s = false → str_split sep s = [s].
Proof.
  induction s as [|c s IH]; simpl; [done|].
  intros [Hc Hs]%orb_false_iff. rewrite Hc, (IH Hs). done.
Qed.

(** Splitting at a separator: the pieces before it, then the pieces after. *)
Lemma str_split_app_sep sep s t :
  ∃ l, l ≠ [] ∧ str_split sep (s +:+ String sep t) = l ++ str_split sep t.
Proof.
  induction s as [|c s (l & Hl & IH)].
  - exists [""]. rewrite str_app_nil. simpl. by rewrite Ascii.eqb_refl.
  - rewrite str_app_cons. simpl. rewrite IH. destruct (Ascii.eqb c sep).
    + by exists ("" :: l).
    + destruct l as [|h l]; [done|]. by exists (String c h :: l).
Qed.

Lemma last_str_split_suffix sep s t :
  str_contains sep t = false →
  last (str_split sep (s +:+ String sep t)) = Some t.
Proof.
  intros Ht. destruct (str_split_app_sep sep s t) as (l & _ & ->).
  by rewrite last_app, (str_split_no_sep _ _ Ht).
Qed.

(** Every string splits at its last separator, if it has one. *)
Lemma str_contains_last sep s :
  str_contains sep s = true →
  ∃ pre h, s = pre +:+ String sep h ∧ str_contains sep h = false.
Proof.
  induction s as [|c s IH]; simpl; [done|].
  destruct (str_contains sep s) eqn:Hs.
  - intros _. destruct (IH eq_refl) as (pre & h & -> & Hh).
    by exists (String c pre), h.
  - rewrite orb_false_r. intros ->%Ascii.eqb_eq. by exists "", s.
Qed.

(** ** Running code in the two monads *)

Lemma bind_Ret_inv {A B : Type} (m : outcome A) (f : A → outcome B) (b : B) :
  m ≫= f = Ret b → ∃ a, m = Ret a ∧ f a = Ret b.
Proof. destruct m as [a| |]; [|done..]. intros Hf. by exists a. Qed.

(** Open every bind of a run that returned. *)
Ltac outcome_inv :=
  repeat match goal with
    | H : mbind _ _ = Ret _ |- _ =>
        let a := fresh "a" in
        let Ha := fresh "Ha" in
        apply bind_Ret_inv in H as (a & Ha & H); cbv beta in H
    end.

Lemma fmap_Ret_inv {A B : Type} (m : outcome A) (f : A → B) (b : B) :
  f <$> m = Ret b → ∃ a, m = Ret a ∧ b = f a.
Proof. destruct m as [a| |]; [|done..]. intros [= <-]. by exists a. Qed.

Lemma for_each_Ret {A B : Type} (f : A → outcome B) xs ys :
  for_each f xs = Ret ys ↔ Forall2 (λ x y, f x = Ret y) xs ys.
Proof.
  revert ys. induction xs as [|x xs IH]; intros ys; simpl.
  - split; [intros [= <-]; constructor | by inversion 1].
  - split.
    + intros (y & Hy & (ys' & Hys & [= <-])%bind_Ret_inv)%bind_Ret_inv.
      constructor; [done|]. by apply IH.
    + inversion 1 as [|? y ? ys' Hy Hys]; subst.
      apply IH in Hys. change (f x ≫= λ y, for_each f xs ≫= λ ys, Ret (y :: ys)) with
        (match f x with Ret y => for_each f xs ≫= λ ys, Ret (y :: ys)
                      | Raise e => Raise e | OutOfFuel => OutOfFuel end).
      by rewrite Hy, Hys.
Qed.


Lemma slice_to_nil {A : Type} (n : Z) : slice_to (@nil A) n = [].
Proof. unfold slice_to. destruct (0 <=? n)%Z; apply take_nil. Qed.

Lemma slice_to_length {A : Type} (xs : list A) (n : Z) :
  (0 ≤ n)%Z → (Z.of_nat (length (slice_to xs n)) ≤ n)%Z.
Proof.
  intros Hn. unfold slice_to.
  destruct (Z.leb_spec 0 n); [|lia]. rewrite length_take. lia.
Qed.

Lemma slice_to_prefix {A : Type} (xs : list A) (n : Z) :
  ∃ k, slice_to xs n = take k xs.
Proof. unfold slice_to. destruct (0 <=? n)%Z; eauto. Qed.

Section Running.
Context {W : Type} `{!Service W} `{!Platform}.
Implicit Types (st : state W) (video_id : json) (max_comments : Z).

Lemma M_bind_Ret_inv {A B : Type} (m : M W A) (f : A → M W B) st b st' :
  (m ≫= f) st = (Ret b, st') →
  ∃ a st1, m st = (Ret a, st1) ∧ f a st1 = (Ret b, st').
Proof.
  unfold mbind, M_bind. destruct (m st) as [[a| |] st1]; [|done..]. eauto.
Qed.

Lemma M_bind_run {A B : Type} (m : M W A) (f : A → M W B) st a st1 :
  m st = (Ret a, st1) → (m ≫= f) st = f a st1.
Proof. unfold mbind, M_bind. by intros ->. Qed.

Lemma lift_Ret_inv {A : Type} (o : outcome A) st a st' :
  lift o st = (Ret a, st') → o = Ret a ∧ st' = st.
Proof. by intros [= -> ->]. Qed.

Lemma get_comments_try_state video_id max_comments st :
  (get_comments_try video_id max_comments st).2 =
  after_comment_request video_id max_comments st.
Proof.
  unfold get_comments_try, call, after_comment_request.
  destruct (execute _ (remote st)) as [[e|response] w]; simpl; done.
Qed.

Lemma get_comments_state video_id max_comments st :
  let st1 := after_comment_request video_id max_comments st in
  let st' := (get_comments video_id max_comments st).2 in
  remote st' = remote st1 ∧ limiter_calls st' = limiter_calls st1 ∧
  trace st' = trace st1.
Proof.
  simpl. unfold get_comments.
  pose proof (get_comments_try_state video_id max_comments st) as Hst.
  destruct (get_comments_try video_id max_comments st) as [[comments o] st1].
  simpl in Hst. subst st1.
  destruct o as [[]|[]|]; done.
Qed.

(** The loop of [get_comments] keeps what it had and adds whole threads. *)
Lemma get_comments_loop_take items video_id max_comments groups :
  for_each (λ item, _parse_comment_response item video_id) items = Ret groups →
  ∀ comments, (Z.of_nat (length comments) < max_comments)%Z →
  ∃ comments',
    get_comments_loop items video_id max_comments comments = (comments', Ret ()) ∧
    take (Z.to_nat max_comments) comments' =
    take (Z.to_nat max_comments) (comments ++ concat groups).
Proof.
  revert groups. induction items as [|item items IH]; intros groups Hg comments Hlen.
  - injection Hg as <-. exists comments. simpl. by rewrite app_nil_r.
  - apply for_each_Ret in Hg.
    inversion Hg as [|? parsed ? groups' Hp Hg']; subst. apply for_each_Ret in Hg'.
    simpl. rewrite Hp.
    destruct (Z.leb_spec max_comments (Z.of_nat (length (comments ++ parsed)))) as [Hle|Hlt].
    + eexists; split; [done|].
      rewrite (assoc_L (++)).
      rewrite (take_app_le (comments ++ parsed)); [done|lia].
    + destruct (IH _ Hg' _ Hlt) as (comments' & -> & Ht).
      eexists; split; [done|]. by rewrite Ht, (assoc_L (++)).
Qed.
End Running.

(** ** Payloads that normalize *)

Section WellFormed.
Context `{!Platform}.

Lemma bind_Ret {A B : Type} (a : A) (f : A → outcome B) : Ret a ≫= f = f a.
Proof. reflexivity. Qed.

(** Replace the next step of a run by its result and go on. *)
Ltac run_step Hstep := rewrite Hstep, ?bind_Ret; cbv beta.

Lemma source_snippet_members c :
  getitem (source_snippet c) "textDisplay" = Ret (JStr (src_text c)) ∧
  getitem (source_snippet c) "authorDisplayName" = Ret (JStr (src_author c)) ∧
  getitem (source_snippet c) "publishedAt" = Ret (JStr (src_publishedAt c)) ∧
  getitem (source_snippet c) "likeCount" = Ret (JInt (src_likeCount c)).
Proof. by repeat split. Qed.

Lemma source_resource_members c :
  getitem (source_resource c) "snippet" = Ret (source_snippet c) ∧
  getitem (source_resource c) "id" = Ret (JStr (src_id c)).
Proof. by split. Qed.

Lemma parse_top_level_run item video_id thread_id top d :
  (getitem item "snippet" ≫= λ s, getitem s "topLevelComment" ≫= λ t,
   getitem t "snippet") = Ret (source_snippet top) →
  getitem item "id" = Ret thread_id →
  parse_timestamp (JStr (src_publishedAt top)) = Ret d →
  parse_top_level item video_id = Ret (source_dict video_id thread_id JNull top d).
Proof.
  intros Hs Hid Hd. unfold parse_top_level.
  destruct (source_snippet_members top) as (Ht & Ha & Hp & Hl).
  run_step Hs. run_step Hid. run_step Ht. run_step Ha. run_step Hp.
  run_step Hd. run_step Hl. done.
Qed.

Lemma parse_reply_run item video_id thread_id c d :
  getitem item "id" = Ret thread_id →
  parse_timestamp (JStr (src_publishedAt c)) = Ret d →
  parse_reply item video_id (source_resource c)
  = Ret (source_dict video_id (JStr (src_id c)) thread_id c d).
Proof.
  intros Hid Hd. unfold parse_reply.
  destruct (source_resource_members c) as (Hs & Hc).
  destruct (source_snippet_members c) as (Ht & Ha & Hp & Hl).
  run_step Hs. run_step Hc. run_step Ht. run_step Ha. run_step Hp.
  run_step Hd. run_step Hl. run_step Hid. done.
Qed.

Lemma parse_replies_run item video_id thread_id replies dates :
  getitem item "id" = Ret thread_id →
  Forall2 (λ c d, parse_timestamp (JStr (src_publishedAt c)) = Ret d) replies dates →
  for_each (parse_reply item video_id) (source_resource <$> replies)
  = Ret (zip_with (λ c d, source_dict video_id (JStr (src_id c)) thread_id c d)
                  replies dates).
Proof.
  intros Hid. induction 1 as [|c d replies dates Hd _ IH]; [done|].
  rewrite fmap_cons. cbn [for_each zip_with].
  run_step (parse_reply_run item video_id _ _ _ Hid Hd). by run_step IH.
Qed.

Lemma thread_with_replies_members thread_id snippet replies :
  let item := thread_with_replies thread_id snippet replies in
  (getitem item "snippet" ≫= λ s, getitem s "topLevelComment" ≫= λ t,
   getitem t "snippet") = Ret snippet ∧
  getitem item "id" = Ret (JStr thread_id) ∧
  contains_key item "replies" = Ret true ∧
  (getitem item "replies" ≫= λ r, getitem r "comments" ≫= py_iter) = Ret replies.
Proof. by repeat split. Qed.

Lemma thread_resource_members thread_id snippet :
  let item := thread_resource thread_id snippet in
  (getitem item "snippet" ≫= λ s, getitem s "topLevelComment" ≫= λ t,
   getitem t "snippet") = Ret snippet ∧
  getitem item "id" = Ret (JStr thread_id) ∧
  contains_key item "replies" = Ret false.
Proof. by repeat split. Qed.

(** A thread of the API whose timestamps parse normalizes to the record
    of its top-level comment followed by the records of its replies. *)
Lemma _parse_comment_response_run video_id thread_id top replies top_date dates :
  parse_timestamp (JStr (src_publishedAt top)) = Ret top_date →
  Forall2 (λ c d, parse_timestamp (JStr (src_publishedAt c)) = Ret d) replies dates →
  _parse_comment_response (source_thread thread_id top replies) video_id
  = Ret (source_dict video_id (JStr thread_id) JNull top top_date
         :: zip_with (λ c d, source_dict video_id (JStr (src_id c))
                                         (JStr thread_id) c d) replies dates).
Proof.
  intros Htop Hreplies. unfold _parse_comment_response.
  destruct replies as [|c replies].
  - apply Forall2_nil_inv_l in Hreplies as ->.
    destruct (thread_resource_members thread_id (source_snippet top))
      as (Hs & Hid & Hno).
    unfold source_thread.
    run_step (parse_top_level_run _ video_id _ _ _ Hs Hid Htop). by run_step Hno.
  - destruct (thread_with_replies_members thread_id (source_snippet top)
                (source_resource <$> c :: replies)) as (Hs & Hid & Hyes & Hr).
    unfold source_thread.
    run_step (parse_top_level_run _ video_id _ _ _ Hs Hid Htop).
    run_step Hyes. run_step Hr.
    by run_step (parse_replies_run _ video_id _ _ _ Hid Hreplies).
Qed.

Lemma video_resource_members id title publishedAt duration thumbnail statistics :
  let item := video_resource id title publishedAt duration thumbnail
                             (JObj statistics) in
  getitem item "id" = Ret (JStr id) ∧
  (getitem item "snippet" ≫= λ s, getitem s "title") = Ret (JStr title) ∧
  (getitem item "snippet" ≫= λ s, dict_get s "description" (JStr ""))
  = Ret (JStr "") ∧
  (getitem item "snippet" ≫= λ s, getitem s "publishedAt" ≫= parse_timestamp)
  = parse_timestamp (JStr publishedAt) ∧
  (∀ k, (getitem item "statistics" ≫= λ s, dict_get s k (JInt 0) ≫= py_int)
        = py_int (default (JInt 0) (statistics !! k))) ∧
  (getitem item "contentDetails" ≫= λ c, getitem c "duration")
  = Ret (JStr duration) ∧
  (getitem item "snippet" ≫= λ s, getitem s "thumbnails" ≫= λ t,
   getitem t "high" ≫= λ h, getitem h "url") = Ret (JStr thumbnail).
Proof. by repeat split. Qed.

(** A video of the API whose timestamp parses and whose counters, where
    present, are integers normalizes; a counter that is absent counts 0. *)
Lemma _parse_video_response_run id title publishedAt duration thumbnail
    (statistics : gmap string json) d views likes comments :
  parse_timestamp (JStr publishedAt) = Ret d →
  py_int (default (JInt 0) (statistics !! "viewCount")) = Ret views →
  py_int (default (JInt 0) (statistics !! "likeCount")) = Ret likes →
  py_int (default (JInt 0) (statistics !! "commentCount")) = Ret comments →
  _parse_video_response
    (video_resource id title publishedAt duration thumbnail (JObj statistics))
  = Ret (VideoDict.mk (JStr id) (JStr title) (JStr "") d views likes comments
                      (JStr duration) (JStr thumbnail)).
Proof.
  intros Hd Hv Hl Hc. unfold _parse_video_response.
  destruct (video_resource_members id title publishedAt duration thumbnail
              statistics) as (Hid & Ht & Hde & Hp & Hs & Hdu & Hth).
  run_step Hid. run_step Ht. run_step Hde. rewrite Hp. run_step Hd.
  rewrite !Hs. run_step Hv. run_step Hl. run_step Hc.
  run_step Hdu. by run_step Hth.
Qed.
End WellFormed.

(** ** RateLimiter: which requests are counted *)

Section RateLimiter.
Context {W : Type} `{!Service W} `{!Platform}.
Implicit Types (st : state W) (video_id : json) (max_comments : Z).


(** So is every page request of the enumeration. *)
Lemma get_videos_page_rate_limited channel_id videos token st :
  let st' := (get_videos_page channel_id videos token st).2 in
  limiter_calls st' = S (limiter_calls st) ∧
  ∃ r, trace st' = trace st ++ [(SearchVideoList channel_id 50 token, r)].
Proof.
  simpl. unfold get_videos_page, rate_limited_api_call, fetch_videos, call,
    mbind, M_bind, lift, mret, M_ret.
  simpl. destruct (execute _ (remote st)) as [[e|response] w]; simpl; [eauto|].
  destruct (page_ids response) as [ids| |]; simpl; [|eauto..].
  destruct (dict_get response "nextPageToken" JNull); simpl; eauto.
Qed.

(** The details request of one chunk is sent without being counted. *)
Lemma get_video_details_chunk_state video_ids i st :
  let st' := (get_video_details_chunk video_ids i st).2 in
  match str_join "," (take 50 (drop i video_ids)) with
  | Ret ids =>
      limiter_calls st' = limiter_calls st ∧ log st' = log st ∧
      ∃ r, trace st' = trace st ++ [(VideosList ids, r)] ∧
           (execute (VideosList ids) (remote st)) = (r, remote st')
  | _ => st' = st
  end.
Proof.
  simpl. unfold get_video_details_chunk, call, mbind, M_bind, lift.
  destruct (str_join _ _) as [ids| |]; simpl; [|done..].
  destruct (execute _ (remote st)) as [[e|response] w]; simpl; [eauto|].
  destruct (parse_videos response); simpl; eauto.
Qed.

(** The details request of [get_video_details] goes out uncounted. *)
Lemma get_video_details_chunk_not_rate_limited video_ids i st :
  let st' := (get_video_details_chunk video_ids i st).2 in
  limiter_calls st' = limiter_calls st ∧
  ∀ ids, str_join "," (take 50 (drop i video_ids)) = Ret ids →
         ∃ r, trace st' = trace st ++ [(VideosList ids, r)].
Proof.
  pose proof (get_video_details_chunk_state video_ids i st) as Hst. simpl in *.
  destruct (str_join _ _) as [ids| |].
  - destruct Hst as (-> & _ & r & -> & _). split; [done|].
    intros ? [= <-]. eauto.
  - by rewrite Hst.
  - by rewrite Hst.
Qed.

(** C1: of the four outbound requests only the channel search and the
    video-page search pass through [rate_limited_api_call].  The
    comment-thread listing of [get_comments] is executed directly: for
    every video, limit and state, the request goes out and the limiter's
    call count stays where it was. *)
Theorem get_comments_not_rate_limited video_id max_comments st :
  let st' := (get_comments video_id max_comments st).2 in
  limiter_calls st' = limiter_calls st ∧
  ∃ r, trace st' =
       trace st ++ [(CommentThreadsList video_id (Z.min 100 max_comments), r)].
Proof.
  simpl. destruct (get_comments_state video_id max_comments st) as (_ & -> & ->).
  unfold after_comment_request; simpl. eauto.
Qed.
End RateLimiter.

(** ** VideoEnumerator: pages and failures *)

Section Enumerator.
Context {W : Type} `{!Service W} `{!Platform}.
Implicit Types (st : state W) (channel_id token : json).

(** One page request, by the reply it gets. *)
Lemma get_videos_page_run channel_id videos token st :
  let req := SearchVideoList channel_id 50 token in
  let r := (execute req (remote st)).1 in
  let st1 := mk_state (execute req (remote st)).2 (S (limiter_calls st))
                      (trace st ++ [(req, r)]) (log st) in
  get_videos_page channel_id videos token st =
  (match r with
   | inl e => Raise e
   | inr response =>
       ids ← page_ids response;
       next ← dict_get response "nextPageToken" JNull;
       Ret (videos ++ ids, next)
   end, st1).
Proof.
  simpl. unfold get_videos_page, rate_limited_api_call, fetch_videos, call,
    mbind at 1, M_bind. simpl.
  destruct (execute _ (remote st)) as [[e|response] w]; simpl; [done|].
  unfold mbind at 1, M_bind, lift.
  destruct (page_ids response) as [ids| |]; simpl; [|done..].
  unfold mbind at 1, M_bind.
  destruct (dict_get response "nextPageToken" JNull); done.
Qed.

Lemma get_videos_loop_S fuel channel_id videos token st :
  get_videos_loop (S fuel) channel_id videos token st =
  match get_videos_page channel_id videos token st with
  | (Ret page, st1) =>
      if truthy page.2 then get_videos_loop fuel channel_id page.1 page.2 st1
      else (Ret page.1, st1)
  | (Raise (HttpError reason), st1) =>
      (Raise (HttpError reason),
       mk_state (remote st1) (limiter_calls st1) (trace st1)
                (log st1 ++ [(ERROR, Error_fetching_videos (HttpError reason))]))
  | (Raise e, st1) => (Raise e, st1)
  | (OutOfFuel, st1) => (OutOfFuel, st1)
  end.
Proof.
  simpl. unfold mbind at 1, M_bind, try_except_HttpError.
  destruct (get_videos_page channel_id videos token st) as [[page|e|] st1]; [|destruct e|]; try done.
  by destruct (truthy page.2).
Qed.

Lemma get_videos_loop_pages channel_id token w pages w' :
  pages_served channel_id token w pages w' →
  ∀ fuel videos st, remote st = w → length pages ≤ fuel →
  ∃ st', get_videos_loop fuel channel_id videos token st
         = (Ret (videos ++ concat pages), st') ∧
         remote st' = w' ∧
         limiter_calls st' = limiter_calls st + length pages ∧
         length (trace st') = length (trace st) + length pages ∧
         log st' = log st.
Proof.
  induction 1 as [token w w' response ids next Hex Hids Hnext Hlast
                 |token w w' w'' response ids next pages Hex Hids Hnext Hmore _ IH];
    intros fuel videos st Hw Hfuel; subst w.
  - destruct fuel as [|fuel]; [simpl in Hfuel; lia|].
    rewrite get_videos_loop_S, get_videos_page_run, Hex. simpl.
    rewrite Hids. simpl. rewrite Hnext. simpl. rewrite Hlast.
    eexists; split; [by rewrite app_nil_r|]. simpl.
    rewrite length_app. simpl. repeat split; lia.
  - destruct fuel as [|fuel]; [simpl in Hfuel; lia|].
    rewrite get_videos_loop_S, get_videos_page_run, Hex. simpl.
    rewrite Hids. simpl. rewrite Hnext. simpl. rewrite Hmore.
    edestruct (IH fuel (videos ++ ids)) as (st' & -> & ? & Hl & Ht & ?);
      [done|simpl in Hfuel; lia|].
    exists st'. split; [by rewrite (assoc_L (++))|].
    simpl in *. rewrite length_app in Ht. simpl in Ht. repeat split; try done; lia.
Qed.

(** C6: when the remote serves the search in pages, each with a
    continuation token but the last, [get_videos] comes to an end (any
    bound on the loop of at least the number of pages is enough) and
    returns the identifiers of the pages in page order; every page was
    requested once, through the rate limiter. *)
Theorem get_videos_all_pages channel_id st pages w' fuel :
  pages_served channel_id JNull (remote st) pages w' →
  length pages ≤ fuel →
  ∃ st', get_videos fuel channel_id st = (Ret (concat pages), st') ∧
         remote st' = w' ∧
         limiter_calls st' = limiter_calls st + length pages ∧
         length (trace st') = length (trace st) + length pages.
Proof.
  intros Hpages Hfuel.
  destruct (get_videos_loop_pages _ _ _ _ _ Hpages fuel [] st eq_refl Hfuel)
    as (st' & Hrun & ? & ? & ? & _).
  exists st'. by repeat split.
Qed.

Lemma get_videos_loop_abort channel_id fuel :
  ∀ videos token st out st',
  get_videos_loop fuel channel_id videos token st = (out, st') →
  ∃ sent, trace st' = trace st ++ sent ∧
    ∀ i req reason,
      sent !! i = Some (req, inl (HttpError reason)) →
      out = Raise (HttpError reason) ∧ S i = length sent ∧
      last (log st') = Some (ERROR, Error_fetching_videos (HttpError reason)).
Proof.
  induction fuel as [|fuel IH]; intros videos token st out st'.
  - intros [= <- <-]. exists []. split; [by rewrite app_nil_r|].
    intros i ? ?. by rewrite lookup_nil.
  - rewrite get_videos_loop_S, get_videos_page_run.
    destruct (execute _ (remote st)) as [[e|response] w]; simpl.
    + intros Hrun. exists [(SearchVideoList channel_id 50 token, inl e)].
      destruct e; injection Hrun as <- <-; simpl; (split; [done|]);
        intros [|i] req reason' [=]; subst.
      by rewrite last_snoc.
    + destruct (page_ids response ≫= _) as [page|e|] eqn:Hpage.
      * destruct (truthy page.2).
        -- intros Hrun. apply IH in Hrun as (sent & -> & Hsent). simpl.
           exists ((SearchVideoList channel_id 50 token, inr response) :: sent).
           split; [by rewrite <-(assoc_L (++))|].
           intros [|i] req reason; [done|]. simpl. intros Hi.
           destruct (Hsent _ _ _ Hi) as (-> & <- & ?). done.
        -- intros [= <- <-]. simpl.
           exists [(SearchVideoList channel_id 50 token, inr response)].
           split; [done|]. by intros [|i] req reason.
      * intros Hrun. exists [(SearchVideoList channel_id 50 token, inr response)].
        destruct e; injection Hrun as <- <-; simpl; (split; [done|]);
          by intros [|i] req reason'.
      * intros [= <- <-]. simpl.
        exists [(SearchVideoList channel_id 50 token, inr response)].
        split; [done|]. by intros [|i] req reason.
Qed.

(** C5: if any page request of [get_videos] was answered by an
    [HttpError], the run ends in that error (logged once at level ERROR),
    no list is returned, and the failed request is the last one sent:
    there is no retry. *)
Theorem get_videos_aborts_on_error fuel channel_id st out st' :
  get_videos fuel channel_id st = (out, st') →
  ∃ sent, trace st' = trace st ++ sent ∧
    ∀ i req reason,
      sent !! i = Some (req, inl (HttpError reason)) →
      out = Raise (HttpError reason) ∧ S i = length sent ∧
      last (log st') = Some (ERROR, Error_fetching_videos (HttpError reason)).
Proof. apply get_videos_loop_abort. Qed.
End Enumerator.

Lemma get_videos_all_pages_witness :
  pages_served (JStr "UC0") JNull
    (remote (Fixture.start Fixture.script_two_pages))
    [Fixture.video_ids 0 50; Fixture.video_ids 50 30] [] ∧
  length [Fixture.video_ids 0 50; Fixture.video_ids 50 30] ≤ 2 ∧
  ∃ st', get_videos 2 (JStr "UC0") (Fixture.start Fixture.script_two_pages)
         = (Ret (Fixture.video_ids 0 80), st') ∧
         length (Fixture.video_ids 0 80) = 80 ∧
         limiter_calls st' = 2.
Proof.
  assert (pages_served (JStr "UC0") JNull
            (remote (Fixture.start Fixture.script_two_pages))
            [Fixture.video_ids 0 50; Fixture.video_ids 50 30] []) as Hpages.
  { eapply pages_more;
      [reflexivity|vm_compute; reflexivity|vm_compute; reflexivity|reflexivity|].
    eapply pages_last;
      [reflexivity|vm_compute; reflexivity|vm_compute; reflexivity|reflexivity]. }
  split; [exact Hpages|]. split; [simpl; lia|].
  destruct (get_videos_all_pages _ _ _ _ 2 Hpages) as (st' & Hrun & _ & Hl & _);
    [simpl; lia|].
  exists st'. split; [exact Hrun|]. split; [vm_compute; reflexivity|exact Hl].
Defined.

Lemma get_videos_aborts_on_error_witness :
  let run := get_videos 5 (JStr "UC0")
                        (Fixture.start Fixture.script_page_then_error) in
  trace run.2 !! 1 = Some (SearchVideoList (JStr "UC0") 50 (JStr "CAUQAA"),
                           inl (HttpError "quotaExceeded")) ∧
  run.1 = Raise (HttpError "quotaExceeded") ∧
  length (trace run.2) = 2.
Proof.
  intros run.
  destruct (get_videos_aborts_on_error 5 (JStr "UC0")
              (Fixture.start Fixture.script_page_then_error) run.1 run.2
              (surjective_pairing _))
    as (sent & Hsent & Hlast).
  change (trace (Fixture.start Fixture.script_page_then_error) ++ sent)
    with sent in Hsent.
  assert (sent !! 1 = Some (SearchVideoList (JStr "UC0") 50 (JStr "CAUQAA"),
                            inl (HttpError "quotaExceeded"))) as Hi
    by (rewrite <-Hsent; vm_compute; reflexivity).
  destruct (Hlast _ _ _ Hi) as (Hout & Hlen & _).
  split; [by rewrite Hsent|]. split; [exact Hout|]. by rewrite Hsent, <-Hlen.
Defined.

(** ** VideoDetailFetcher: batches of fifty *)

Lemma range_from_bounds fuel start stop step :
  Forall (λ i, start ≤ i < stop) (range_from fuel start stop step).
Proof.
  revert start. induction fuel as [|fuel IH]; intros start; simpl; [done|].
  destruct (Nat.ltb_spec start stop); [|done].
  constructor; [lia|]. eapply Forall_impl; [apply IH|]. simpl. lia.
Qed.

(** The number of starts is the ceiling of the distance over the step. *)
Lemma range_from_length fuel start stop :
  stop - start ≤ fuel →
  let k := length (range_from fuel start stop 50) in
  stop - start ≤ 50 * k ∧ 50 * k < stop - start + 50.
Proof.
  revert start. induction fuel as [|fuel IH]; intros start Hfuel; cbn [range_from].
  - simpl. lia.
  - destruct (Nat.ltb_spec start stop); cbn [length]; [|lia].
    destruct (IH (start + 50)) as [Hlo Hhi]; [lia|]. lia.
Qed.

(** The chunks laid end to end give back the list from [start] on. *)
Lemma range_from_chunks {A : Type} (l : list A) fuel start :
  length l - start ≤ fuel →
  concat ((λ i, take 50 (drop i l)) <$> range_from fuel start (length l) 50)
  = drop start l.
Proof.
  revert start. induction fuel as [|fuel IH]; intros start Hfuel; simpl.
  - rewrite drop_ge; [done|lia].
  - destruct (Nat.ltb_spec start (length l)); simpl.
    + rewrite IH by lia. rewrite <-drop_drop. apply take_drop.
    + rewrite drop_ge; [done|lia].
Qed.

Lemma chunks_of_concat video_ids : concat (chunks_of video_ids) = video_ids.
Proof. unfold chunks_of, py_range. rewrite range_from_chunks by lia. done. Qed.

Lemma chunks_of_size video_ids :
  Forall (λ chunk, 1 ≤ length chunk ≤ 50) (chunks_of video_ids).
Proof.
  unfold chunks_of, py_range. apply Forall_fmap.
  eapply Forall_impl; [apply range_from_bounds|].
  intros i Hi. simpl in *. rewrite length_take, length_drop. lia.
Qed.

Lemma chunks_of_length video_ids :
  length (chunks_of video_ids) = (length video_ids + 49) / 50.
Proof.
  unfold chunks_of, py_range. rewrite length_fmap.
  destruct (range_from_length (length video_ids) 0 (length video_ids))
    as [Hlo Hhi]; [lia|].
  remember (length (range_from (length video_ids) 0 (length video_ids) 50)) as k.
  apply (Nat.div_unique _ _ _ (length video_ids + 49 - 50 * k)); lia.
Qed.

Section DetailFetcher.
Context {W : Type} `{!Service W} `{!Platform}.
Implicit Types (st : state W) (video_ids : list json).

(** One round of the loop, by the reply it gets. *)
Lemma get_video_details_chunk_run video_ids i st :
  get_video_details_chunk video_ids i st =
  match str_join "," (take 50 (drop i video_ids)) with
  | Ret ids =>
      let r := (execute (VideosList ids) (remote st)).1 in
      (match r with
       | inl e => Raise e
       | inr response => parse_videos response
       end,
       mk_state (execute (VideosList ids) (remote st)).2 (limiter_calls st)
                (trace st ++ [(VideosList ids, r)]) (log st))
  | Raise e => (Raise e, st)
  | OutOfFuel => (OutOfFuel, st)
  end.
Proof.
  unfold get_video_details_chunk, call, mbind at 1, M_bind, lift.
  destruct (str_join _ _) as [ids| |]; [|done..].
  unfold mbind, M_bind.
  destruct (execute _ (remote st)) as [[e|response] w]; simpl; [done|].
  by destruct (parse_videos response).
Qed.

(** A round that sends its request and stops the loop. *)
Local Ltac sent_one ids :=
  simpl; eexists [_]; split; [done|]; split; [done|];
  exists 1; split; [simpl; lia|]; split; [|done];
  simpl; rewrite ?take_0; constructor; [by exists ids|constructor].

(** A round that stops the loop before any request. *)
Local Ltac sent_none :=
  exists []; split; [by rewrite app_nil_r|]; split; [done|];
  exists 0; split; [lia|]; split; [constructor|done].

Lemma get_video_details_loop_trace video_ids starts :
  ∀ video_data st out st',
  get_video_details_loop video_ids starts video_data st = (out, st') →
  ∃ sent, trace st' = trace st ++ sent ∧ limiter_calls st' = limiter_calls st ∧
    ∃ k, k ≤ length starts ∧
      Forall2 names_chunk ((λ i, take 50 (drop i video_ids)) <$> take k starts) sent ∧
      ∀ videos, out = Ret videos →
        k = length starts ∧
        ∃ parsed, Forall2 parsed_reply sent parsed ∧
                  videos = video_data ++ concat parsed.
Proof.
  induction starts as [|i starts IH]; intros video_data st out st'.
  - intros [= <- <-]. exists []. split; [by rewrite app_nil_r|]. split; [done|].
    exists 0. split; [done|]. split; [constructor|].
    intros videos [= <-]. split; [done|].
    exists []. split; [constructor|by rewrite app_nil_r].
  - simpl. unfold mbind at 1, M_bind. rewrite get_video_details_chunk_run.
    destruct (str_join _ _) as [ids| |] eqn:Hjoin.
    + simpl. destruct (execute _ (remote st)) as [[e|response] w] eqn:Hex; simpl.
      * intros [= <- <-]. sent_one ids.
      * destruct (parse_videos response) as [parsed| |] eqn:Hparse.
        -- intros Hrun. apply IH in Hrun as (sent & -> & -> & k & Hk & Hnames & Hret).
           simpl. eexists (_ :: sent). split; [by rewrite <-(assoc_L (++))|].
           split; [done|]. exists (S k). split; [simpl; lia|].
           split; [constructor; [by exists ids|done]|].
           intros videos Hv. destruct (Hret _ Hv) as (-> & ps & Hps & ->).
           split; [done|]. exists (parsed :: ps).
           split; [constructor; [by exists response|done]|].
           simpl. by rewrite (assoc_L (++)).
        -- intros [= <- <-]. sent_one ids.
        -- intros [= <- <-]. sent_one ids.
    + intros [= <- <-]. sent_none.
    + intros [= <- <-]. sent_none.
Qed.

(** C7: the chunks visited by [get_video_details] are consecutive pieces
    of the input, each of 1 to 50 identifiers, [ceil(N/50)] of them for [N]
    identifiers.  The requests of a run name the chunks one by one, in
    order, without going through the rate limiter; a run that returns has
    sent exactly [ceil(N/50)] requests and returns what the replies parsed
    to, reply after reply. *)
Theorem get_video_details_batches video_ids :
  concat (chunks_of video_ids) = video_ids ∧
  Forall (λ chunk, 1 ≤ length chunk ≤ 50) (chunks_of video_ids) ∧
  length (chunks_of video_ids) = (length video_ids + 49) / 50 ∧
  ∀ st out st',
    get_video_details video_ids st = (out, st') →
    ∃ sent, trace st' = trace st ++ sent ∧ limiter_calls st' = limiter_calls st ∧
      ∃ k, k ≤ length (chunks_of video_ids) ∧
        Forall2 names_chunk (take k (chunks_of video_ids)) sent ∧
        ∀ videos, out = Ret videos →
          length sent = (length video_ids + 49) / 50 ∧
          Forall2 names_chunk (chunks_of video_ids) sent ∧
          ∃ parsed, Forall2 parsed_reply sent parsed ∧ videos = concat parsed.
Proof.
  split; [apply chunks_of_concat|]. split; [apply chunks_of_size|].
  split; [apply chunks_of_length|].
  intros st out st' Hrun. unfold get_video_details in Hrun.
  apply get_video_details_loop_trace in Hrun
    as (sent & Htrace & Hlim & k & Hk & Hnames & Hret).
  exists sent. split; [done|]. split; [done|]. exists k.
  unfold chunks_of. rewrite length_fmap, <-fmap_take.
  split; [done|]. split; [done|].
  intros videos Hv. destruct (Hret _ Hv) as (-> & parsed & Hparsed & ->).
  rewrite firstn_all in Hnames.
  split; [|split; [done|by exists parsed]].
  rewrite <-(Forall2_length _ _ _ Hnames), length_fmap.
  pose proof (chunks_of_length video_ids) as Hlen. unfold chunks_of in Hlen.
  by rewrite length_fmap in Hlen.
Qed.
End DetailFetcher.

Lemma get_video_details_batches_witness :
  let run := get_video_details (Fixture.video_ids 0 51)
                               (Fixture.start Fixture.script_details) in
  run.1 = Ret [Fixture.video_without_likes_dict] ∧
  length (trace run.2) = (51 + 49) / 50 ∧
  limiter_calls run.2 = 0.
Proof.
  intros run.
  destruct (get_video_details_batches (W := list reply) (Fixture.video_ids 0 51))
    as (_ & _ & _ & Hrun).
  destruct (Hrun (Fixture.start Fixture.script_details) run.1 run.2
              (surjective_pairing _))
    as (sent & Hsent & Hlim & k & _ & _ & Hret).
  assert (run.1 = Ret [Fixture.video_without_likes_dict]) as Hout
    by (vm_compute; reflexivity).
  destruct (Hret _ Hout) as (Hlen & _).
  split; [exact Hout|]. split; [|exact Hlim].
  rewrite Hsent. exact Hlen.
Defined.

(** ** CommentFetcher: the cap and the failure boundary *)

Section CommentFetcher.
Context {W : Type} `{!Service W} `{!Platform}.
Implicit Types (st : state W) (video_id : json) (max_comments : Z).

Lemma get_comments_run video_id max_comments st response w items :
  execute (CommentThreadsList video_id (Z.min 100 max_comments)) (remote st)
    = (inr response, w) →
  response_items response = Ret items →
  ∀ comments,
    get_comments_loop items video_id max_comments [] = (comments, Ret ()) →
    get_comments video_id max_comments st =
    (Ret (slice_to comments max_comments),
     after_comment_request video_id max_comments st).
Proof.
  intros Hex Hit comments Hloop.
  unfold get_comments, get_comments_try, call, after_comment_request.
  rewrite Hex. simpl. by rewrite Hit, Hloop.
Qed.

(** C2: for a positive [max_comments], a list returned by [get_comments]
    has at most [max_comments] records; when the threads of the reply
    all normalize, it is the first [max_comments] records of the threads
    laid end to end; and with [max_comments = 2] and a first thread of one
    top-level comment and three replies, it is that comment and its first
    reply, the other two replies being cut off. *)
Theorem get_comments_at_most_max video_id max_comments st :
  (0 < max_comments)%Z →
  (∀ comments st',
     get_comments video_id max_comments st = (Ret comments, st') →
     (Z.of_nat (length comments) ≤ max_comments)%Z) ∧
  (∀ response w items groups,
     execute (CommentThreadsList video_id (Z.min 100 max_comments)) (remote st)
       = (inr response, w) →
     response_items response = Ret items →
     for_each (λ item, _parse_comment_response item video_id) items = Ret groups →
     get_comments video_id max_comments st =
     (Ret (take (Z.to_nat max_comments) (concat groups)),
      after_comment_request video_id max_comments st)) ∧
  (∀ response w item items top r1 r2 r3,
     max_comments = 2%Z →
     execute (CommentThreadsList video_id (Z.min 100 max_comments)) (remote st)
       = (inr response, w) →
     response_items response = Ret (item :: items) →
     _parse_comment_response item video_id = Ret [top; r1; r2; r3] →
     (get_comments video_id max_comments st).1 = Ret [top; r1]).
Proof.
  intros Hpos. split; [|split].
  - intros comments st'. unfold get_comments.
    destruct (get_comments_try video_id max_comments st) as [[cs o] st1].
    destruct o as [[]|[]|]; simpl; intros [= <- _]; apply slice_to_length; lia.
  - intros response w items groups Hex Hit Hg.
    destruct (get_comments_loop_take items video_id max_comments groups Hg [])
      as (comments & Hloop & Ht); [simpl; lia|].
    rewrite (get_comments_run _ _ _ _ _ _ Hex Hit _ Hloop).
    unfold slice_to. destruct (Z.leb_spec 0 max_comments); [|lia].
    by rewrite Ht.
  - intros response w item items top r1 r2 r3 -> Hex Hit Hp.
    assert (get_comments_loop (item :: items) video_id 2 []
            = ([top; r1; r2; r3], Ret ())) as Hloop by (simpl; by rewrite Hp).
    by rewrite (get_comments_run _ _ _ _ _ _ Hex Hit _ Hloop).
Qed.

End CommentFetcher.

Lemma get_comments_at_most_max_witness :
  (0 < 2)%Z ∧
  (get_comments Fixture.video0 2
     (Fixture.start [inr (Fixture.threads_page [Fixture.thread_1_3])])).1
  = Ret [Fixture.top_dict "t0"; Fixture.reply_dict "t0" 1].
Proof.
  split; [lia|].
  eapply (get_comments_at_most_max Fixture.video0 2
            (Fixture.start [inr (Fixture.threads_page [Fixture.thread_1_3])]));
    [lia|reflexivity|reflexivity|reflexivity|vm_compute; reflexivity].
Defined.

Section PartialFailure.
Context {W : Type} `{!Service W} `{!Platform}.
Implicit Types (st : state W) (video_id : json) (max_comments : Z).

(** C4: when the comment-thread request of a video fails with an
    [HttpError], [get_comments] logs one warning and returns the empty
    list; the loop of the assembler goes on to the remaining videos with
    the comments gathered so far; and no run of [get_comments] ends in an
    [HttpError]. *)
Theorem get_comments_isolates_failure video_id max_comments st reason w :
  execute (CommentThreadsList video_id (Z.min 100 max_comments)) (remote st)
    = (inl (HttpError reason), w) →
  let st' :=
    mk_state w (limiter_calls st)
      (trace st ++ [(CommentThreadsList video_id (Z.min 100 max_comments),
                     inl (HttpError reason))])
      (log st ++ [(WARNING, Failed_to_fetch_comments video_id (HttpError reason))]) in
  get_comments video_id max_comments st = (Ret [], st') ∧
  (∀ video_ids comments_raw,
     fetch_comments (video_id :: video_ids) max_comments comments_raw st =
     fetch_comments video_ids max_comments comments_raw st') ∧
  (∀ video_id' max_comments' st0 reason',
     (get_comments video_id' max_comments' st0).1 ≠ Raise (HttpError reason')).
Proof.
  intros Hex. simpl.
  assert (get_comments video_id max_comments st = (Ret [], mk_state w (limiter_calls st)
      (trace st ++ [(CommentThreadsList video_id (Z.min 100 max_comments),
                     inl (HttpError reason))])
      (log st ++ [(WARNING, Failed_to_fetch_comments video_id (HttpError reason))])))
    as Hget.
  { unfold get_comments, get_comments_try, call. rewrite Hex. simpl.
    by rewrite slice_to_nil. }
  split; [done|split].
  - intros video_ids comments_raw. simpl.
    rewrite (M_bind_run _ _ _ _ _ Hget). by rewrite app_nil_r.
  - intros video_id' max_comments' st0 reason'. unfold get_comments.
    destruct (get_comments_try video_id' max_comments' st0) as [[cs o] st1].
    destruct o as [[]|[]|]; done.
Qed.
End PartialFailure.

Lemma get_comments_isolates_failure_witness :
  execute (CommentThreadsList Fixture.video0 (Z.min 100 5))
          (remote (Fixture.start Fixture.script_one_failure))
  = (inl (HttpError "commentsDisabled"),
     [inr (Fixture.threads_page [Fixture.thread_1_2])]) ∧
  (fetch_comments [Fixture.video0; Fixture.video1] 5 []
                  (Fixture.start Fixture.script_one_failure)).1
  = Ret [Fixture.top_dict_of Fixture.video1 "t1";
         Fixture.reply_dict_of Fixture.video1 "t1" 1;
         Fixture.reply_dict_of Fixture.video1 "t1" 2].
Proof.
  split; [reflexivity|].
  destruct (get_comments_isolates_failure Fixture.video0 5
              (Fixture.start Fixture.script_one_failure) "commentsDisabled"
              [inr (Fixture.threads_page [Fixture.thread_1_2])] eq_refl)
    as (_ & Hnext & _).
  rewrite Hnext. vm_compute. reflexivity.
Defined.

(** ** ResponseNormalizer: comment threads *)

Section Threads.
Context `{!Platform}.

Lemma parse_top_level_shape item video_id top :
  parse_top_level item video_id = Ret top →
  getitem item "id" = Ret (CommentDict.comment_id top) ∧
  CommentDict.reply_to top = JNull.
Proof.
  unfold parse_top_level. intros Hp. outcome_inv.
  injection Hp as <-. simpl. done.
Qed.

Lemma parse_reply_shape item video_id reply r :
  parse_reply item video_id reply = Ret r →
  getitem reply "id" = Ret (CommentDict.comment_id r) ∧
  getitem item "id" = Ret (CommentDict.reply_to r).
Proof.
  unfold parse_reply. intros Hp. outcome_inv.
  injection Hp as <-. simpl. done.
Qed.

Lemma contains_key_Ret_inv item k b :
  contains_key item k = Ret b →
  ∃ m, item = JObj m ∧ b = bool_decide (is_Some (m !! k)).
Proof. destruct item; simpl; try done. intros [= <-]. eauto. Qed.

(** What [_parse_comment_response] returns: the top-level record, then
    one record per reply. *)
Lemma _parse_comment_response_inv item video_id comments :
  _parse_comment_response item video_id = Ret comments →
  ∃ top replies rest,
    comments = top :: rest ∧
    parse_top_level item video_id = Ret top ∧
    thread_replies item = Ret replies ∧
    Forall2 (λ reply r, parse_reply item video_id reply = Ret r) replies rest.
Proof.
  unfold _parse_comment_response, thread_replies. intros Hp.
  apply bind_Ret_inv in Hp as (top & Htop & Hp).
  apply bind_Ret_inv in Hp as (b & Hb & Hp). rewrite Hb. simpl.
  destruct b.
  - apply bind_Ret_inv in Hp as (replies & Hr & Hp).
    apply bind_Ret_inv in Hp as (rest & Hrest & [= <-]).
    exists top, replies, rest. rewrite Hr. by apply for_each_Ret in Hrest.
  - injection Hp as <-. exists top, [], []. by repeat split.
Qed.

Lemma replies_resolved_nil : replies_resolved [].
Proof. intros i r. by rewrite lookup_nil. Qed.

Lemma replies_resolved_take k comments :
  replies_resolved comments → replies_resolved (take k comments).
Proof.
  intros Hc i r [Hr Hi]%lookup_take_Some.
  destruct (Hc i r Hr) as [?|(j & top & Hj & Htop & ? & ?)]; [by left|].
  right. exists j, top. repeat split; try done.
  rewrite lookup_take_lt; [done|lia].
Qed.

Lemma replies_resolved_thread comments top rest :
  replies_resolved comments →
  CommentDict.reply_to top = JNull →
  Forall (λ r, CommentDict.reply_to r = CommentDict.comment_id top) rest →
  replies_resolved (comments ++ top :: rest).
Proof.
  intros Hc Htop Hrest i r Hi.
  apply lookup_app_Some in Hi as [Hi|[Hge Hi]].
  - destruct (Hc i r Hi) as [?|(j & t & Hj & Ht & ? & ?)]; [by left|].
    right. exists j, t. repeat split; try done.
    by rewrite lookup_app_l by (apply lookup_lt_Some in Ht; lia).
  - destruct (i - length comments) as [|n] eqn:Hn; simpl in Hi.
    + injection Hi as <-. by left.
    + right. exists (length comments), top. repeat split; [lia| |done|].
      * by rewrite list_lookup_middle.
      * symmetry. eapply Forall_lookup_1 in Hrest; done.
Qed.
End Threads.

Section ThreadOrder.
Context {W : Type} `{!Service W} `{!Platform}.
Implicit Types (st : state W) (video_id : json) (max_comments : Z).

Lemma _parse_comment_response_resolved item video_id parsed comments :
  _parse_comment_response item video_id = Ret parsed →
  replies_resolved comments → replies_resolved (comments ++ parsed).
Proof.
  intros Hp Hc.
  apply _parse_comment_response_inv in Hp
    as (top & replies & rest & -> & Htop & _ & Hrest).
  apply parse_top_level_shape in Htop as [Hid Hnull].
  apply replies_resolved_thread; [done..|].
  eapply Forall2_Forall_r; [exact Hrest|].
  apply Forall_true. intros reply r [_ Hr]%parse_reply_shape. congruence.
Qed.

Lemma get_comments_loop_resolved items video_id max_comments comments :
  replies_resolved comments →
  replies_resolved (get_comments_loop items video_id max_comments comments).1.
Proof.
  revert comments. induction items as [|item items IH]; intros comments Hc; [done|].
  simpl. destruct (_parse_comment_response item video_id) as [parsed| |] eqn:Hp;
    [|done..].
  pose proof (_parse_comment_response_resolved _ _ _ _ Hp Hc) as Hc'.
  destruct (max_comments <=? _)%Z; [done|]. by apply IH.
Qed.

Lemma get_comments_try_resolved video_id max_comments st :
  replies_resolved (get_comments_try video_id max_comments st).1.1.
Proof.
  unfold get_comments_try.
  destruct (call _ st) as [[response| |] st1]; simpl;
    [|apply replies_resolved_nil..].
  destruct (response_items response) as [items| |];
    [|apply replies_resolved_nil..].
  apply get_comments_loop_resolved, replies_resolved_nil.
Qed.

(** C8: a thread item that normalizes yields the record of its
    top-level comment, with [reply_to] null and the thread's id as
    [comment_id], followed by one record per reply in the order of the
    payload, each with the reply's own id and with [reply_to] equal to
    that [comment_id]: [1 + k] records for [k] replies.  A thread of the
    API whose timestamps parse does normalize, to exactly these records.
    Hence in every list returned by [get_comments] a record with a
    [reply_to] answers a top-level record of the same list. *)
Theorem _parse_comment_response_thread :
  (∀ item video_id comments,
     _parse_comment_response item video_id = Ret comments →
     ∃ thread_id top replies rest,
       getitem item "id" = Ret thread_id ∧
       thread_replies item = Ret replies ∧
       comments = top :: rest ∧
       length comments = 1 + length replies ∧
       CommentDict.comment_id top = thread_id ∧
       CommentDict.reply_to top = JNull ∧
       Forall2 (λ reply r, getitem reply "id" = Ret (CommentDict.comment_id r) ∧
                           CommentDict.reply_to r = thread_id) replies rest) ∧
  (∀ video_id thread_id top replies top_date dates,
     parse_timestamp (JStr (src_publishedAt top)) = Ret top_date →
     Forall2 (λ c d, parse_timestamp (JStr (src_publishedAt c)) = Ret d)
             replies dates →
     _parse_comment_response (source_thread thread_id top replies) video_id
     = Ret (source_dict video_id (JStr thread_id) JNull top top_date
            :: zip_with (λ c d, source_dict video_id (JStr (src_id c))
                                            (JStr thread_id) c d) replies dates)) ∧
  (∀ video_id max_comments st fetched st',
     get_comments video_id max_comments st = (Ret fetched, st') →
     replies_resolved fetched).
Proof.
  split; [|split; [apply _parse_comment_response_run|]].
  - intros item video_id comments Hp.
    apply _parse_comment_response_inv in Hp
      as (top & replies & rest & -> & Htop & Hreplies & Hrest).
    apply parse_top_level_shape in Htop as [Hid Hnull].
    exists (CommentDict.comment_id top), top, replies, rest.
    repeat split; try done.
    + simpl. f_equal. symmetry. by eapply Forall2_length.
    + eapply Forall2_impl; [exact Hrest|].
      intros reply r [? ?]%parse_reply_shape. split; [done|congruence].
  - intros video_id max_comments st fetched st'. unfold get_comments.
    pose proof (get_comments_try_resolved video_id max_comments st) as Hres.
    destruct (get_comments_try video_id max_comments st) as [[cs o] st1].
    simpl in Hres. destruct (slice_to_prefix cs max_comments) as [k Hk].
    destruct o as [[]|[]|]; simpl; intros [= <- _]; rewrite Hk;
      by apply replies_resolved_take.
Qed.
End ThreadOrder.

Lemma _parse_comment_response_thread_witness :
  _parse_comment_response Fixture.thread_1_2 Fixture.video0
  = Ret [Fixture.top_dict "t1"; Fixture.reply_dict "t1" 1; Fixture.reply_dict "t1" 2] ∧
  ∃ thread_id top replies rest,
    getitem Fixture.thread_1_2 "id" = Ret thread_id ∧
    thread_replies Fixture.thread_1_2 = Ret replies ∧
    [Fixture.top_dict "t1"; Fixture.reply_dict "t1" 1; Fixture.reply_dict "t1" 2]
    = top :: rest ∧
    3 = 1 + length replies ∧
    CommentDict.comment_id top = thread_id ∧
    CommentDict.reply_to top = JNull ∧
    Forall2 (λ reply r, getitem reply "id" = Ret (CommentDict.comment_id r) ∧
                        CommentDict.reply_to r = thread_id) replies rest.
Proof.
  split; [vm_compute; reflexivity|].
  apply (proj1 (_parse_comment_response_thread (W := list reply))
           Fixture.thread_1_2 Fixture.video0).
  vm_compute; reflexivity.
Defined.

(** ** ResponseNormalizer: counters *)

Section Counters.
Context `{!Platform}.

Lemma counter_default item k n :
  (getitem item "statistics" ≫= λ s, dict_get s k (JInt 0) ≫= py_int) = Ret n →
  ∃ statistics,
    getitem item "statistics" = Ret (JObj statistics) ∧
    py_int (default (JInt 0) (statistics !! k)) = Ret n.
Proof.
  intros Hn. apply bind_Ret_inv in Hn as (s & Hs & Hn).
  apply bind_Ret_inv in Hn as (v & Hv & Hn).
  destruct s; try done. injection Hv as <-. eauto.
Qed.

Lemma counter_absent (statistics : gmap string json) k n :
  py_int (default (JInt 0) (statistics !! k)) = Ret n →
  statistics !! k = None → n = 0%Z.
Proof. intros Hn Hk. rewrite Hk in Hn. by injection Hn. Qed.

(** C3, as the code has it: a video item that normalizes has a
    [statistics] object, and each of the three counters missing from it
    comes out as zero, [like_count] among them; a counter that is there is
    its value under [int].  For a comment payload that normalizes, the
    [like_count] of the thread's top-level record is [int] of the
    [likeCount] member its snippet carries.  A video of the API without
    [likeCount] in its statistics does normalize, with [like_count = 0]. *)
Theorem _parse_video_response_defaults :
  (∀ item video,
     _parse_video_response item = Ret video →
     ∃ statistics,
       getitem item "statistics" = Ret (JObj statistics) ∧
       (statistics !! "viewCount" = None → VideoDict.view_count video = 0%Z) ∧
       (statistics !! "likeCount" = None → VideoDict.like_count video = 0%Z) ∧
       (statistics !! "commentCount" = None → VideoDict.comment_count video = 0%Z) ∧
       py_int (default (JInt 0) (statistics !! "viewCount"))
         = Ret (VideoDict.view_count video) ∧
       py_int (default (JInt 0) (statistics !! "likeCount"))
         = Ret (VideoDict.like_count video) ∧
       py_int (default (JInt 0) (statistics !! "commentCount"))
         = Ret (VideoDict.comment_count video)) ∧
  (∀ item video_id comments,
     _parse_comment_response item video_id = Ret comments →
     ∃ top rest snippet likes,
       comments = top :: rest ∧
       (getitem item "snippet" ≫= λ s, getitem s "topLevelComment" ≫= λ t,
        getitem t "snippet") = Ret snippet ∧
       getitem snippet "likeCount" = Ret likes ∧
       py_int likes = Ret (CommentDict.like_count top)) ∧
  (∀ id title publishedAt duration thumbnail (statistics : gmap string json)
     d views comments,
     statistics !! "likeCount" = None →
     parse_timestamp (JStr publishedAt) = Ret d →
     py_int (default (JInt 0) (statistics !! "viewCount")) = Ret views →
     py_int (default (JInt 0) (statistics !! "commentCount")) = Ret comments →
     _parse_video_response
       (video_resource id title publishedAt duration thumbnail (JObj statistics))
     = Ret (VideoDict.mk (JStr id) (JStr title) (JStr "") d views 0 comments
                         (JStr duration) (JStr thumbnail))).
Proof.
  split; [|split].
  - intros item video Hp. unfold _parse_video_response in Hp.
    apply bind_Ret_inv in Hp as (video_id & _ & Hp).
    apply bind_Ret_inv in Hp as (title & _ & Hp).
    apply bind_Ret_inv in Hp as (description & _ & Hp).
    apply bind_Ret_inv in Hp as (published_date & _ & Hp).
    apply bind_Ret_inv in Hp as (view_count & Hv & Hp).
    apply bind_Ret_inv in Hp as (like_count & Hl & Hp).
    apply bind_Ret_inv in Hp as (comment_count & Hc & Hp).
    apply bind_Ret_inv in Hp as (duration & _ & Hp).
    apply bind_Ret_inv in Hp as (thumbnail_url & _ & [= <-]).
    apply counter_default in Hv as (statistics & Hs & Hv).
    apply counter_default in Hl as (s2 & Hs2 & Hl).
    apply counter_default in Hc as (s3 & Hs3 & Hc).
    rewrite Hs in Hs2, Hs3. injection Hs2 as <-. injection Hs3 as <-.
    exists statistics. simpl. repeat split; try done.
    + by apply counter_absent.
    + by apply counter_absent.
    + by apply counter_absent.
  - intros item video_id comments Hp.
    apply _parse_comment_response_inv in Hp
      as (top & replies & rest & -> & Htop & _ & _).
    unfold parse_top_level in Htop.
    apply bind_Ret_inv in Htop as (snippet & Hsn & Htop).
    apply bind_Ret_inv in Htop as (comment_id & _ & Htop).
    apply bind_Ret_inv in Htop as (text & _ & Htop).
    apply bind_Ret_inv in Htop as (author & _ & Htop).
    apply bind_Ret_inv in Htop as (published_date & _ & Htop).
    apply bind_Ret_inv in Htop as (like_count & Hl & [= <-]).
    apply bind_Ret_inv in Hl as (likes & Hlikes & Hl).
    eexists _, rest, snippet, likes. by repeat split.
  - intros id title publishedAt duration thumbnail statistics d views comments
      Hnone Hd Hv Hc.
    apply _parse_video_response_run; try done. by rewrite Hnone.
Qed.
End Counters.

Lemma _parse_video_response_defaults_witness :
  _parse_video_response Fixture.video_without_likes
  = Ret Fixture.video_without_likes_dict ∧
  ∃ statistics,
    getitem Fixture.video_without_likes "statistics" = Ret (JObj statistics) ∧
    statistics !! "likeCount" = None ∧
    VideoDict.like_count Fixture.video_without_likes_dict = 0%Z.
Proof.
  split; [vm_compute; reflexivity|].
  destruct (proj1 _parse_video_response_defaults Fixture.video_without_likes
              Fixture.video_without_likes_dict)
    as (statistics & Hs & _ & Hl & _); [vm_compute; reflexivity|].
  exists statistics. split; [done|].
  injection Hs as <-. split; [vm_compute; reflexivity|]. apply Hl.
  vm_compute; reflexivity.
Defined.

(** C3 as stated fails on comment payloads: a thread whose top-level
    snippet has no [likeCount] does not normalize to a record with
    [like_count = 0]; it raises [KeyError]. *)
Lemma comment_like_count_not_defaulted :
  _parse_comment_response Fixture.thread_without_likes Fixture.video0
  = Raise (KeyError (JStr "likeCount")) ∧
  ¬ ∃ comments,
      _parse_comment_response Fixture.thread_without_likes Fixture.video0
      = Ret comments ∧
      Forall (λ c, CommentDict.like_count c = 0%Z) comments.
Proof.
  assert (_parse_comment_response Fixture.thread_without_likes Fixture.video0
          = Raise (KeyError (JStr "likeCount"))) as Hraise
    by (vm_compute; reflexivity).
  split; [done|]. intros (comments & Hret & _). by rewrite Hraise in Hret.
Qed.

(** ** DataAssembler: timestamps and the channel handle *)

Section Assembler.
Context {W : Type} `{!Service W} `{!Platform}.
Implicit Types (st : state W).

Lemma videos_naive_Ret videos videos' :
  videos_naive videos = Ret videos' →
  Forall (λ v, tzinfo (Video.published_date v) = None) videos'.
Proof.
  intros Hv. assert (videos' = Video_naive <$> videos) as ->
    by (destruct videos; [done|by injection Hv]).
  apply Forall_fmap, Forall_true. done.
Qed.

Lemma comments_naive_Ret comments_raw comments :
  for_each (λ c, Comment_naive <$> Comment_validate c) comments_raw = Ret comments →
  Forall (λ c, tzinfo (Comment.published_date c) = None) comments.
Proof.
  intros Hc%for_each_Ret. eapply Forall2_Forall_r; [exact Hc|].
  apply Forall_true. intros raw c (c' & _ & ->)%fmap_Ret_inv. done.
Qed.

(** C9: a timestamp written with the [Z] marker parses exactly as the
    same timestamp written with [+00:00]; the [published_date] of a video
    dict is the [publishedAt] of its snippet parsed that way; and every
    [published_date] of the two collections returned by [fetch_data] is
    naive. *)
Theorem timestamps_normalized :
  (∀ s, parse_timestamp (JStr (s +:+ "Z")) = parse_timestamp (JStr (s +:+ UTC_Z))) ∧
  (∀ item video,
     _parse_video_response item = Ret video →
     (getitem item "snippet" ≫= λ s, getitem s "publishedAt" ≫= parse_timestamp)
     = Ret (VideoDict.published_date video)) ∧
  (∀ fuel channel_url max_comments st videos comments st',
     fetch_data fuel channel_url max_comments st = (Ret (videos, comments), st') →
     Forall (λ v, tzinfo (Video.published_date v) = None) videos ∧
     Forall (λ c, tzinfo (Comment.published_date c) = None) comments).
Proof.
  split; [|split].
  - intros s. unfold parse_timestamp. by rewrite !str_replace_app.
  - intros item video Hp. unfold _parse_video_response in Hp.
    apply bind_Ret_inv in Hp as (video_id & _ & Hp).
    apply bind_Ret_inv in Hp as (title & _ & Hp).
    apply bind_Ret_inv in Hp as (description & _ & Hp).
    apply bind_Ret_inv in Hp as (published_date & Hd & Hp).
    apply bind_Ret_inv in Hp as (view_count & _ & Hp).
    apply bind_Ret_inv in Hp as (like_count & _ & Hp).
    apply bind_Ret_inv in Hp as (comment_count & _ & Hp).
    apply bind_Ret_inv in Hp as (duration & _ & Hp).
    by apply bind_Ret_inv in Hp as (thumbnail_url & _ & [= <-]).
  - intros fuel channel_url max_comments st videos comments st' Hrun.
    unfold fetch_data in Hrun.
    apply M_bind_Ret_inv in Hrun as (handle & st1 & _ & Hrun).
    apply M_bind_Ret_inv in Hrun as (channel_input & st2 & _ & Hrun).
    apply M_bind_Ret_inv in Hrun as (channel_id & st3 & _ & Hrun).
    unfold assemble in Hrun.
    apply M_bind_Ret_inv in Hrun as (video_ids & st4 & _ & Hrun).
    apply M_bind_Ret_inv in Hrun as (videos_raw & st5 & _ & Hrun).
    apply M_bind_Ret_inv in Hrun as (videos0 & st6 & _ & Hrun).
    apply M_bind_Ret_inv in Hrun as (comments_raw & st7 & _ & Hrun).
    apply M_bind_Ret_inv in Hrun as (comments0 & st8 & [Hc _]%lift_Ret_inv & Hrun).
    apply M_bind_Ret_inv in Hrun as (videos1 & st9 & [Hv _]%lift_Ret_inv & Hrun).
    injection Hrun as <- <- _.
    split; [by eapply videos_naive_Ret|by eapply comments_naive_Ret].
Qed.

(** C10: the handle is the last piece of the URL split at ["@"]: it has
    no ["@"], it is what follows the last ["@"] of the URL, and the whole
    URL when the URL has none.  Deriving it raises nothing; the pydantic
    model then accepts it when the URL is an [HttpUrl] and the handle is
    not empty, and the channel search is made with it. *)
Theorem fetch_data_handle channel_url :
  ∃ handle,
    index_last (str_split "@" channel_url) = Ret handle ∧
    str_contains "@" handle = false ∧
    (if str_contains "@" channel_url
     then ∃ pre, channel_url = pre +:+ String "@" handle
     else handle = channel_url) ∧
    (∀ fuel max_comments st,
       fetch_data fuel channel_url max_comments st =
       if valid_http_url channel_url && (1 <=? String.length handle)
       then (channel_id ← get_channel_id handle;
             assemble fuel channel_id max_comments) st
       else (Raise (ValidationError "YouTubeChannelInput"), st)) ∧
    (str_contains "@" channel_url = false →
     valid_http_url channel_url = true → channel_url ≠ "" →
     ∀ fuel max_comments st,
       fetch_data fuel channel_url max_comments st =
       (channel_id ← get_channel_id channel_url;
        assemble fuel channel_id max_comments) st).
Proof.
  assert (∃ handle, last (str_split "@" channel_url) = Some handle ∧
            str_contains "@" handle = false ∧
            if str_contains "@" channel_url
            then ∃ pre, channel_url = pre +:+ String "@" handle
            else handle = channel_url) as (handle & Hlast & Hno & Hcase).
  { destruct (str_contains "@" channel_url) eqn:Hat.
    - destruct (str_contains_last _ _ Hat) as (pre & h & -> & Hh).
      exists h. rewrite (last_str_split_suffix _ _ _ Hh). eauto.
    - exists channel_url. by rewrite (str_split_no_sep _ _ Hat). }
  assert (∀ fuel max_comments st,
       fetch_data fuel channel_url max_comments st =
       if valid_http_url channel_url && (1 <=? String.length handle)
       then (channel_id ← get_channel_id handle;
             assemble fuel channel_id max_comments) st
       else (Raise (ValidationError "YouTubeChannelInput"), st)) as Hrun.
  { intros fuel max_comments st. unfold fetch_data, index_last.
    rewrite Hlast, (M_bind_run _ _ st handle st eq_refl).
    unfold YouTubeChannelInput_validate.
    destruct (valid_http_url channel_url && _); reflexivity. }
  exists handle. unfold index_last. rewrite Hlast. repeat split; try done.
  intros Hat Hvalid Hne fuel max_comments st. rewrite Hrun.
  rewrite Hat in Hcase. subst handle. rewrite Hvalid.
  destruct channel_url; done.
Qed.
End Assembler.

Lemma timestamps_normalized_witness :
  fetch_data 3 "https://www.youtube.com/@go_quest" 5
             (Fixture.start Fixture.script_one_video)
  = (Ret ([Fixture.video_row],
          [Fixture.top_row; Fixture.reply_row 1; Fixture.reply_row 2]),
     (fetch_data 3 "https://www.youtube.com/@go_quest" 5
                 (Fixture.start Fixture.script_one_video)).2) ∧
  Forall (λ v, tzinfo (Video.published_date v) = None) [Fixture.video_row] ∧
  Forall (λ c, tzinfo (Comment.published_date c) = None)
         [Fixture.top_row; Fixture.reply_row 1; Fixture.reply_row 2].
Proof.
  assert (fetch_data 3 "https://www.youtube.com/@go_quest" 5
             (Fixture.start Fixture.script_one_video)
  = (Ret ([Fixture.video_row],
          [Fixture.top_row; Fixture.reply_row 1; Fixture.reply_row 2]),
     (fetch_data 3 "https://www.youtube.com/@go_quest" 5
                 (Fixture.start Fixture.script_one_video)).2)) as Hrun
    by (vm_compute; reflexivity).
  split; [exact Hrun|].
  exact (proj2 (proj2 timestamps_normalized) _ _ _ _ _ _ _ Hrun).
Defined.

Lemma fetch_data_handle_witness :
  str_contains "@" "https://www.youtube.com/c/go_quest" = false ∧
  valid_http_url "https://www.youtube.com/c/go_quest" = true ∧
  (fetch_data 3 "https://www.youtube.com/c/go_quest" 5
              (Fixture.start Fixture.script_one_video)).2.(trace) !! 0
  = Some (SearchChannelList "https://www.youtube.com/c/go_quest",
          inr Fixture.channel_page).
Proof.
  split; [reflexivity|]. split; [reflexivity|].
  destruct (fetch_data_handle (W := list reply) "https://www.youtube.com/c/go_quest")
    as (handle & _ & _ & _ & _ & Hwhole).
  rewrite Hwhole; [vm_compute; reflexivity|reflexivity|reflexivity|done].
Defined.

(** ** Further properties: ChannelResolver *)

Section ChannelResolver.
Context {W : Type} `{!Service W}.
Implicit Types (st : state W).

(** The state after the channel search: counted, and on the trace. *)
Lemma get_channel_id_run handle st :
  let req := SearchChannelList handle in
  let r := (execute req (remote st)).1 in
  let st1 := mk_state (execute req (remote st)).2 (S (limiter_calls st))
                      (trace st ++ [(req, r)]) (log st) in
  get_channel_id handle st =
  match r with
  | inl e => (Raise e, st1)
  | inr response =>
      match dict_get response "items" JNull with
      | Ret items =>
          if negb (truthy items)
          then (Raise (ValueError ("No channel found: " +:+ handle)), st1)
          else (getitem response "items" ≫= λ l, getindex l 0 ≫= λ i,
                getitem i "id" ≫= λ d, getitem d "channelId", st1)
      | Raise e => (Raise e, st1)
      | OutOfFuel => (OutOfFuel, st1)
      end
  end.
Proof.
  simpl. unfold get_channel_id, rate_limited_api_call, call, mbind at 1, M_bind.
  simpl. destruct (execute _ (remote st)) as [[e|response] w]; simpl; [done|].
  unfold mbind at 1, M_bind, lift.
  destruct (dict_get response "items" JNull) as [items| |]; simpl; [|done..].
  by destruct (negb (truthy items)).
Qed.

(** When the reply to the channel search is an object whose [items] is
    missing, null or empty, [get_channel_id] raises [ValueError] with the
    handle in its message, after one request counted by the limiter; it
    logs nothing. *)
Theorem get_channel_id_not_found handle st (response : gmap string json) w :
  execute (SearchChannelList handle) (remote st) = (inr (JObj response), w) →
  truthy (default JNull (response !! "items")) = false →
  get_channel_id handle st =
  (Raise (ValueError ("No channel found: " +:+ handle)),
   mk_state w (S (limiter_calls st))
            (trace st ++ [(SearchChannelList handle, inr (JObj response))])
            (log st)).
Proof.
  intros Hex Hitems. rewrite get_channel_id_run, Hex. simpl. by rewrite Hitems.
Qed.

(** When [items] is a non-empty list, [get_channel_id] returns the
    [id.channelId] of its first element, whatever the other elements are. *)
Theorem get_channel_id_first_item handle st response w first others channel :
  execute (SearchChannelList handle) (remote st) = (inr response, w) →
  getitem response "items" = Ret (JArr (first :: others)) →
  (getitem first "id" ≫= λ d, getitem d "channelId") = Ret channel →
  get_channel_id handle st =
  (Ret channel,
   mk_state w (S (limiter_calls st))
            (trace st ++ [(SearchChannelList handle, inr response)]) (log st)).
Proof.
  intros Hex Hitems Hid. rewrite get_channel_id_run, Hex. simpl.
  destruct response as [| | | | |m]; try done. simpl in *.
  destruct (m !! "items") as [items|]; [|done]. injection Hitems as ->.
  simpl. by rewrite Hid.
Qed.
End ChannelResolver.

Lemma get_channel_id_not_found_witness :
  truthy (default JNull (Fixture.no_items !! "items")) = false ∧
  (get_channel_id "nobody" (Fixture.start [inr (JObj Fixture.no_items)])).1
  = Raise (ValueError "No channel found: nobody").
Proof.
  assert (truthy (default JNull (Fixture.no_items !! "items")) = false) as Hno
    by (vm_compute; reflexivity).
  split; [exact Hno|].
  by rewrite (get_channel_id_not_found "nobody"
                (Fixture.start [inr (JObj Fixture.no_items)])
                Fixture.no_items [] eq_refl Hno).
Defined.

Lemma get_channel_id_first_item_witness :
  (get_channel_id "go_quest" (Fixture.start [inr Fixture.channel_page])).1
  = Ret (JStr "UC0").
Proof.
  by rewrite (get_channel_id_first_item "go_quest"
                (Fixture.start [inr Fixture.channel_page]) Fixture.channel_page []
                (obj [("id", obj [("channelId", JStr "UC0")])]) [] (JStr "UC0")
                eq_refl eq_refl eq_refl).
Defined.

(** ** Further properties: VideoEnumerator *)

Section EnumeratorMore.
Context {W : Type} `{!Service W}.
Implicit Types (st : state W) (channel_id token : json).

Lemma get_videos_loop_counted channel_id fuel :
  ∀ videos token st,
  let st' := (get_videos_loop fuel channel_id videos token st).2 in
  length (trace st') + limiter_calls st = length (trace st) + limiter_calls st'.
Proof.
  induction fuel as [|fuel IH]; intros videos token st; [done|].
  cbv zeta. rewrite get_videos_loop_S, get_videos_page_run.
  destruct (execute _ (remote st)) as [[e|response] w]; simpl.
  - destruct e; simpl; rewrite length_app; simpl; lia.
  - destruct (page_ids response ≫= _) as [page|e|].
    + destruct (truthy page.2).
      * match goal with
        | |- context [get_videos_loop fuel channel_id ?vs ?tok ?st1] =>
            specialize (IH vs tok st1)
        end.
        simpl in IH. rewrite length_app in IH. simpl in IH. lia.
      * simpl. rewrite length_app. simpl. lia.
    + destruct e; simpl; rewrite length_app; simpl; lia.
    + simpl. rewrite length_app. simpl. lia.
Qed.

(** Every request of [get_videos] is counted by the rate limiter: on any
    run, ended by a result, an exception or the bound on the loop, the
    trace has grown by as many requests as the limiter has counted
    calls. *)
Theorem get_videos_requests_counted fuel channel_id st :
  let st' := (get_videos fuel channel_id st).2 in
  length (trace st') + limiter_calls st = length (trace st) + limiter_calls st'.
Proof. apply get_videos_loop_counted. Qed.

Lemma get_videos_loop_endless channel_id :
  (∀ token w, ∃ response w' ids next,
     execute (SearchVideoList channel_id 50 token) w = (inr response, w') ∧
     page_ids response = Ret ids ∧
     dict_get response "nextPageToken" JNull = Ret next ∧
     truthy next = true) →
  ∀ fuel videos token st,
    (get_videos_loop fuel channel_id videos token st).1 = OutOfFuel ∧
    limiter_calls (get_videos_loop fuel channel_id videos token st).2
    = limiter_calls st + fuel.
Proof.
  intros Hserve. induction fuel as [|fuel IH]; intros videos token st.
  - simpl. split; [done|lia].
  - rewrite get_videos_loop_S, get_videos_page_run.
    destruct (Hserve token (remote st)) as (response & w' & ids & next & Hex & Hids & Hnext & Hmore).
    rewrite Hex. simpl. rewrite Hids. simpl. rewrite Hnext. simpl. rewrite Hmore.
    match goal with
    | |- context [get_videos_loop fuel channel_id ?vs ?tok ?st1] =>
        destruct (IH vs tok st1) as [-> ->]
    end.
    split; [done|]. simpl. lia.
Qed.

(** [get_videos] puts no bound on the number of pages: against a remote
    that hands out a continuation token with every page, no number of
    rounds of the loop is enough for it to return, and every round sends
    one more counted request. *)
Theorem get_videos_never_returns channel_id :
  (∀ token w, ∃ response w' ids next,
     execute (SearchVideoList channel_id 50 token) w = (inr response, w') ∧
     page_ids response = Ret ids ∧
     dict_get response "nextPageToken" JNull = Ret next ∧
     truthy next = true) →
  ∀ fuel st,
    (get_videos fuel channel_id st).1 = OutOfFuel ∧
    limiter_calls (get_videos fuel channel_id st).2 = limiter_calls st + fuel.
Proof. intros Hserve fuel st. by apply get_videos_loop_endless. Qed.

Lemma get_videos_loop_log channel_id fuel :
  ∀ videos token st out st',
  get_videos_loop fuel channel_id videos token st = (out, st') →
  (∃ reason, out = Raise (HttpError reason) ∧
             log st' = log st ++ [(ERROR, Error_fetching_videos (HttpError reason))]) ∨
  ((∀ reason, out ≠ Raise (HttpError reason)) ∧ log st' = log st).
Proof.
  induction fuel as [|fuel IH]; intros videos token st out st'.
  - intros [= <- <-]. by right.
  - rewrite get_videos_loop_S, get_videos_page_run.
    destruct (execute _ (remote st)) as [[e|response] w]; simpl.
    + destruct e; intros [= <- <-]; simpl; try (by right). left. eauto.
    + destruct (page_ids response ≫= _) as [page|e|].
      * destruct (truthy page.2).
        -- intros Hrun. by apply IH in Hrun.
        -- intros [= <- <-]. by right.
      * destruct e; intros [= <- <-]; simpl; try (by right). left. eauto.
      * intros [= <- <-]. by right.
Qed.

(** [get_videos] logs in one case only: a run that ends in an
    [HttpError] has logged it once, at level ERROR; a run that returns, or
    ends in any other exception (a page without [items], an item without
    [videoId], a failure of the transport), has logged nothing. *)
Theorem get_videos_logs_http_errors_only fuel channel_id st out st' :
  get_videos fuel channel_id st = (out, st') →
  (∃ reason, out = Raise (HttpError reason) ∧
             log st' = log st ++ [(ERROR, Error_fetching_videos (HttpError reason))]) ∨
  ((∀ reason, out ≠ Raise (HttpError reason)) ∧ log st' = log st).
Proof. apply get_videos_loop_log. Qed.
End EnumeratorMore.

Lemma get_videos_never_returns_witness :
  (@get_videos unit endless 7 (JStr "UC0") (mk_state () 0 [] [])).1 = OutOfFuel ∧
  limiter_calls (@get_videos unit endless 7 (JStr "UC0") (mk_state () 0 [] [])).2 = 7.
Proof.
  apply (@get_videos_never_returns unit endless (JStr "UC0")).
  intros token [].
  exists (search_page [JStr "v0000000000"] (Some "CAUQAA")), (),
         [JStr "v0000000000"], (JStr "CAUQAA").
  repeat split; vm_compute; reflexivity.
Defined.

Lemma get_videos_logs_http_errors_only_witness :
  let run := get_videos 5 (JStr "UC0")
                        (Fixture.start [inr (obj [("kind", JStr "youtube#searchListResponse")])]) in
  run.1 = Raise (KeyError (JStr "items")) ∧ log run.2 = [].
Proof.
  intros run.
  assert (run.1 = Raise (KeyError (JStr "items"))) as Hout by (vm_compute; reflexivity).
  split; [exact Hout|].
  destruct (get_videos_logs_http_errors_only 5 (JStr "UC0") _ run.1 run.2
              (surjective_pairing _)) as [(reason & Hr & _)|[_ Hlog]].
  - rewrite Hout in Hr. discriminate Hr.
  - exact Hlog.
Defined.

(** ** Further properties: VideoDetailFetcher *)

Lemma str_join_TypeError sep xs :
  Exists (λ j, is_str j = false) xs → str_join sep xs = Raise TypeError.
Proof.
  induction 1 as [x xs Hx|x xs Hxs IH].
  - by destruct x.
  - destruct x; try done. simpl. rewrite IH. by destruct xs; [inversion Hxs|].
Qed.

Lemma py_range_cons stop step :
  0 < stop → ∃ rest, py_range 0 stop step = 0 :: rest.
Proof.
  intros Hstop. unfold py_range. destruct stop as [|stop]; [lia|].
  simpl. eauto.
Qed.

Section DetailFetcherMore.
Context {W : Type} `{!Service W} `{!Platform}.
Implicit Types (st : state W) (video_ids : list json).

(** A loop that stops with nothing more sent. *)
Local Ltac stopped_unsent :=
  exists []; split; [by rewrite app_nil_r|]; split; [done|];
  intros ? ? ?; by rewrite lookup_nil.

Lemma get_video_details_loop_failure video_ids starts :
  ∀ video_data st out st',
  get_video_details_loop video_ids starts video_data st = (out, st') →
  ∃ sent, trace st' = trace st ++ sent ∧ log st' = log st ∧
    ∀ i req e, sent !! i = Some (req, inl e) →
               out = Raise e ∧ S i = length sent.
Proof.
  induction starts as [|i starts IH]; intros video_data st out st'.
  - intros [= <- <-]. stopped_unsent.
  - simpl. unfold mbind at 1, M_bind. rewrite get_video_details_chunk_run.
    destruct (str_join _ _) as [ids| |].
    + simpl. destruct (execute _ (remote st)) as [[e|response] w]; simpl.
      * intros [= <- <-]. simpl. eexists [_]. split; [done|]. split; [done|].
        intros [|j] req e' [=]; subst. done.
      * destruct (parse_videos response) as [parsed| |].
        -- intros Hrun. apply IH in Hrun as (sent & -> & -> & Hsent). simpl.
           eexists (_ :: sent). split; [by rewrite <-(assoc_L (++))|].
           split; [done|]. intros [|j] req e; [done|]. simpl. intros Hj.
           destruct (Hsent _ _ _ Hj) as [-> <-]. done.
        -- intros [= <- <-]. simpl. eexists [_]. split; [done|]. split; [done|].
           by intros [|j] req e'.
        -- intros [= <- <-]. simpl. eexists [_]. split; [done|]. split; [done|].
           by intros [|j] req e'.
    + intros [= <- <-]. stopped_unsent.
    + intros [= <- <-]. stopped_unsent.
Qed.

(** A details request that fails, with an [HttpError] or any other
    exception, ends [get_video_details] in that exception: the videos
    parsed from the earlier chunks are not returned, no later chunk is
    requested, and, unlike [get_videos], nothing is logged. *)
Theorem get_video_details_aborts_on_failure video_ids st out st' :
  get_video_details video_ids st = (out, st') →
  ∃ sent, trace st' = trace st ++ sent ∧ log st' = log st ∧
    ∀ i req e, sent !! i = Some (req, inl e) →
               out = Raise e ∧ S i = length sent.
Proof. apply get_video_details_loop_failure. Qed.

(** The identifiers are joined before the request is built: when one of
    the first fifty is not a string, [get_video_details] raises
    [TypeError] and no request is sent at all. *)
Theorem get_video_details_non_string_id video_ids st :
  Exists (λ j, is_str j = false) (take 50 video_ids) →
  get_video_details video_ids st = (Raise TypeError, st).
Proof.
  intros Hbad. unfold get_video_details.
  destruct (py_range_cons (length video_ids) 50) as [rest ->].
  { destruct video_ids; [by inversion Hbad|simpl; lia]. }
  simpl. unfold mbind at 1, M_bind. rewrite get_video_details_chunk_run.
  rewrite drop_0. by rewrite (str_join_TypeError _ _ Hbad).
Qed.
End DetailFetcherMore.

Lemma get_video_details_aborts_on_failure_witness :
  let run := get_video_details (Fixture.video_ids 0 120)
               (Fixture.start [inr (obj [("items", JArr [Fixture.video_without_likes])]);
                               inl (HttpError "backendError");
                               inr (obj [("items", JArr [])])]) in
  run.1 = Raise (HttpError "backendError") ∧ length (trace run.2) = 2 ∧
  log run.2 = [].
Proof.
  intros run.
  destruct (get_video_details_aborts_on_failure (Fixture.video_ids 0 120) _
              run.1 run.2 (surjective_pairing _)) as (sent & Hsent & Hlog & Hfail).
  change (trace (Fixture.start _) ++ sent) with sent in Hsent.
  assert (∃ req, sent !! 1 = Some (req, inl (HttpError "backendError")))
    as [req Hreq] by (rewrite <-Hsent; eexists; vm_compute; reflexivity).
  destruct (Hfail _ _ _ Hreq) as [Hout Hlen].
  split; [exact Hout|]. split; [by rewrite Hsent, <-Hlen|exact Hlog].
Defined.

Lemma get_video_details_non_string_id_witness :
  get_video_details [JStr "v0000000000"; JInt 7]
                    (Fixture.start Fixture.script_details)
  = (Raise TypeError, Fixture.start Fixture.script_details).
Proof.
  apply (get_video_details_non_string_id (W := list reply)).
  apply Exists_cons_tl, Exists_cons_hd. reflexivity.
Defined.

(** ** Further properties: CommentFetcher *)

Section CommentFetcherMore.
Context {W : Type} `{!Service W} `{!Platform}.
Implicit Types (st : state W) (video_id : json) (max_comments : Z).

Lemma parse_top_level_video_id item video_id top :
  parse_top_level item video_id = Ret top → CommentDict.video_id top = video_id.
Proof.
  unfold parse_top_level. intros Hp. outcome_inv. by injection Hp as <-.
Qed.

Lemma parse_reply_video_id item video_id reply r :
  parse_reply item video_id reply = Ret r → CommentDict.video_id r = video_id.
Proof.
  unfold parse_reply. intros Hp. outcome_inv. by injection Hp as <-.
Qed.

Lemma _parse_comment_response_video_id item video_id parsed :
  _parse_comment_response item video_id = Ret parsed →
  Forall (λ c, CommentDict.video_id c = video_id) parsed.
Proof.
  intros Hp. apply _parse_comment_response_inv in Hp
    as (top & replies & rest & -> & Htop & _ & Hrest).
  constructor; [by eapply parse_top_level_video_id|].
  eapply Forall2_Forall_r; [exact Hrest|].
  apply Forall_true. intros reply r Hr. by eapply parse_reply_video_id.
Qed.

Lemma get_comments_loop_video_id items video_id max_comments comments :
  Forall (λ c, CommentDict.video_id c = video_id) comments →
  Forall (λ c, CommentDict.video_id c = video_id)
         (get_comments_loop items video_id max_comments comments).1.
Proof.
  revert comments. induction items as [|item items IH]; intros comments Hc; [done|].
  simpl. destruct (_parse_comment_response item video_id) as [parsed| |] eqn:Hp;
    [|done..].
  assert (Forall (λ c, CommentDict.video_id c = video_id) (comments ++ parsed))
    as Hc' by (apply Forall_app; split;
               [done|by apply (_parse_comment_response_video_id item)]).
  destruct (max_comments <=? _)%Z; [done|]. by apply IH.
Qed.

(** What [get_comments] returns, by what its [try] block left. *)
Lemma get_comments_Ret_inv video_id max_comments st fetched st' :
  get_comments video_id max_comments st = (Ret fetched, st') →
  fetched = slice_to (get_comments_try video_id max_comments st).1.1 max_comments.
Proof.
  unfold get_comments.
  destruct (get_comments_try video_id max_comments st) as [[cs o] st1].
  destruct o as [[]|[]|]; simpl; by intros [= <- _].
Qed.

Lemma get_comments_try_video_id video_id max_comments st :
  Forall (λ c, CommentDict.video_id c = video_id)
         (get_comments_try video_id max_comments st).1.1.
Proof.
  unfold get_comments_try.
  destruct (call _ st) as [[response| |] st1]; simpl; [|done..].
  destruct (response_items response) as [items| |]; [|done..].
  by apply get_comments_loop_video_id.
Qed.

Lemma get_comments_Ret_video_id video_id max_comments st fetched st' :
  get_comments video_id max_comments st = (Ret fetched, st') →
  Forall (λ c, CommentDict.video_id c = video_id) fetched.
Proof.
  intros ->%get_comments_Ret_inv.
  destruct (slice_to_prefix (get_comments_try video_id max_comments st).1.1
              max_comments) as [k ->].
  apply Forall_take, get_comments_try_video_id.
Qed.

(** Every record returned by [get_comments] carries the video identifier
    it was called with, the replies included. *)
Theorem get_comments_video_id video_id max_comments st fetched st' :
  get_comments video_id max_comments st = (Ret fetched, st') →
  Forall (λ c, CommentDict.video_id c = video_id) fetched.
Proof. apply get_comments_Ret_video_id. Qed.

(** With [max_comments] zero or negative the loop stops after the first
    thread, whatever the later ones are, and the slice [[:max_comments]]
    cuts that thread from its end: nothing is left of it for zero, all
    but the last [-max_comments] records for a negative value. *)
Theorem get_comments_non_positive_cap video_id max_comments st
    response w item items parsed :
  (max_comments ≤ 0)%Z →
  execute (CommentThreadsList video_id (Z.min 100 max_comments)) (remote st)
    = (inr response, w) →
  response_items response = Ret (item :: items) →
  _parse_comment_response item video_id = Ret parsed →
  get_comments video_id max_comments st =
  (Ret (if (max_comments =? 0)%Z then []
        else take (length parsed - Z.to_nat (- max_comments)) parsed),
   after_comment_request video_id max_comments st).
Proof.
  intros Hm Hex Hit Hp.
  assert (get_comments_loop (item :: items) video_id max_comments []
          = (parsed, Ret ())) as Hloop.
  { simpl. rewrite Hp. simpl.
    destruct (Z.leb_spec max_comments (Z.of_nat (length parsed))); [done|lia]. }
  rewrite (get_comments_run _ _ _ _ _ _ Hex Hit _ Hloop). f_equal.
  unfold slice_to. destruct (Z.eqb_spec max_comments 0) as [->|Hneg]; [done|].
  destruct (Z.leb_spec 0 max_comments); [lia|done].
Qed.

Lemma get_comments_loop_raise video_id max_comments e item rest :
  _parse_comment_response item video_id = Raise e →
  ∀ sound groups comments,
    for_each (λ item, _parse_comment_response item video_id) sound = Ret groups →
    (Z.of_nat (length (comments ++ concat groups)) < max_comments)%Z →
    get_comments_loop (sound ++ item :: rest) video_id max_comments comments
    = (comments ++ concat groups, Raise e).
Proof.
  intros He. induction sound as [|s sound IH]; intros groups comments Hg Hlen.
  - injection Hg as <-. simpl. by rewrite He, app_nil_r.
  - apply for_each_Ret in Hg.
    inversion Hg as [|? parsed ? groups' Hp Hg']; subst. apply for_each_Ret in Hg'.
    simpl in *. rewrite Hp. rewrite (assoc_L (++)) in Hlen.
    destruct (Z.leb_spec max_comments (Z.of_nat (length (comments ++ parsed)))).
    + rewrite length_app in Hlen. lia.
    + rewrite (IH _ _ Hg' Hlen). by rewrite (assoc_L (++)).
Qed.

(** Only [HttpError] is caught.  When a thread met before the cap is
    reached does not normalize (a member is missing, a counter is not a
    number), its exception leaves [get_comments] with nothing logged and
    ends the loop of the assembler: the comments gathered for the earlier
    videos are not returned and the later videos are not asked for. *)
Theorem get_comments_other_errors_escape video_id max_comments st
    response w sound groups item rest e :
  execute (CommentThreadsList video_id (Z.min 100 max_comments)) (remote st)
    = (inr response, w) →
  response_items response = Ret (sound ++ item :: rest) →
  for_each (λ item, _parse_comment_response item video_id) sound = Ret groups →
  (Z.of_nat (length (concat groups)) < max_comments)%Z →
  _parse_comment_response item video_id = Raise e →
  (∀ reason, e ≠ HttpError reason) →
  get_comments video_id max_comments st
  = (Raise e, after_comment_request video_id max_comments st) ∧
  ∀ video_ids comments_raw,
    fetch_comments (video_id :: video_ids) max_comments comments_raw st
    = (Raise e, after_comment_request video_id max_comments st).
Proof.
  intros Hex Hit Hg Hlen He Hne.
  assert (get_comments video_id max_comments st
          = (Raise e, after_comment_request video_id max_comments st)) as Hget.
  { unfold get_comments, get_comments_try, call, after_comment_request.
    rewrite Hex. simpl. rewrite Hit.
    rewrite (get_comments_loop_raise _ _ _ _ _ He _ _ [] Hg Hlen).
    destruct e; try done. by destruct (Hne reason). }
  split; [done|]. intros video_ids comments_raw. simpl.
  unfold mbind, M_bind. by rewrite Hget.
Qed.
End CommentFetcherMore.

Lemma get_comments_video_id_witness :
  let run := get_comments Fixture.video1 5
               (Fixture.start [inr (Fixture.threads_page [Fixture.thread_1_2])]) in
  run.1 = Ret [Fixture.top_dict_of Fixture.video1 "t1";
               Fixture.reply_dict_of Fixture.video1 "t1" 1;
               Fixture.reply_dict_of Fixture.video1 "t1" 2] ∧
  Forall (λ c, CommentDict.video_id c = Fixture.video1)
         [Fixture.top_dict_of Fixture.video1 "t1";
          Fixture.reply_dict_of Fixture.video1 "t1" 1;
          Fixture.reply_dict_of Fixture.video1 "t1" 2].
Proof.
  intros run.
  assert (run = (Ret [Fixture.top_dict_of Fixture.video1 "t1";
                      Fixture.reply_dict_of Fixture.video1 "t1" 1;
                      Fixture.reply_dict_of Fixture.video1 "t1" 2], run.2)) as Hrun
    by (vm_compute; reflexivity).
  split; [by rewrite Hrun|].
  exact (get_comments_video_id _ _ _ _ _ Hrun).
Defined.

Lemma get_comments_non_positive_cap_witness :
  (-1 ≤ 0)%Z ∧
  (get_comments Fixture.video0 (-1)
     (Fixture.start [inr Fixture.page_with_bad_thread])).1
  = Ret [Fixture.top_dict "t1"; Fixture.reply_dict "t1" 1].
Proof.
  split; [lia|].
  assert (_parse_comment_response Fixture.thread_1_2 Fixture.video0
          = Ret [Fixture.top_dict "t1"; Fixture.reply_dict "t1" 1;
                 Fixture.reply_dict "t1" 2]) as Hp by (vm_compute; reflexivity).
  rewrite (get_comments_non_positive_cap Fixture.video0 (-1)
             (Fixture.start [inr Fixture.page_with_bad_thread])
             Fixture.page_with_bad_thread [] Fixture.thread_1_2
             [Fixture.thread_without_likes] _ ltac:(lia) eq_refl eq_refl Hp).
  reflexivity.
Defined.

Lemma get_comments_other_errors_escape_witness :
  (fetch_comments [Fixture.video0; Fixture.video1] 10
     [Fixture.top_dict "t9"]
     (Fixture.start [inr Fixture.page_with_bad_thread;
                     inr (Fixture.threads_page [Fixture.thread_1_2])])).1
  = Raise (KeyError (JStr "likeCount")).
Proof.
  assert (for_each (λ item, _parse_comment_response item Fixture.video0)
                   [Fixture.thread_1_2]
          = Ret [[Fixture.top_dict "t1"; Fixture.reply_dict "t1" 1;
                  Fixture.reply_dict "t1" 2]]) as Hg by (vm_compute; reflexivity).
  assert (_parse_comment_response Fixture.thread_without_likes Fixture.video0
          = Raise (KeyError (JStr "likeCount"))) as He by (vm_compute; reflexivity).
  destruct (get_comments_other_errors_escape Fixture.video0 10
              (Fixture.start [inr Fixture.page_with_bad_thread;
                              inr (Fixture.threads_page [Fixture.thread_1_2])])
              Fixture.page_with_bad_thread
              [inr (Fixture.threads_page [Fixture.thread_1_2])]
              [Fixture.thread_1_2] _ Fixture.thread_without_likes []
              (KeyError (JStr "likeCount"))
              eq_refl eq_refl Hg ltac:(simpl; lia) He ltac:(done)) as [_ Hloop].
  by rewrite Hloop.
Defined.

(** ** Further properties: DataAssembler *)

Section AssemblerMore.
Context {W : Type} `{!Service W} `{!Platform}.
Implicit Types (st : state W) (video_id : json) (max_comments : Z).

Lemma fetch_comments_S video_id video_ids max_comments comments_raw st :
  fetch_comments (video_id :: video_ids) max_comments comments_raw st =
  match get_comments video_id max_comments st with
  | (Ret fetched, st1) =>
      fetch_comments video_ids max_comments (comments_raw ++ fetched) st1
  | (Raise e, st1) => (Raise e, st1)
  | (OutOfFuel, st1) => (OutOfFuel, st1)
  end.
Proof.
  simpl. unfold mbind, M_bind.
  by destruct (get_comments video_id max_comments st) as [[fetched| |] st1].
Qed.

Lemma dicts_resolved_nil : dicts_resolved [].
Proof. intros i r. by rewrite lookup_nil. Qed.

Lemma dicts_resolved_app comments fetched :
  dicts_resolved comments → dicts_resolved fetched →
  dicts_resolved (comments ++ fetched).
Proof.
  intros Hc Hf i r Hi. apply lookup_app_Some in Hi as [Hi|[Hge Hi]].
  - destruct (Hc i r Hi) as [?|(j & top & Hj & Htop & ? & ? & ?)]; [by left|].
    right. exists j, top. repeat split; try done.
    by rewrite lookup_app_l by (apply lookup_lt_Some in Htop; lia).
  - destruct (Hf _ r Hi) as [?|(j & top & Hj & Htop & ? & ? & ?)]; [by left|].
    right. exists (length comments + j), top. repeat split; try done; [lia|].
    by rewrite lookup_app_r, Nat.add_comm, Nat.add_sub by lia.
Qed.

Lemma get_comments_dicts_resolved video_id max_comments st fetched st' :
  get_comments video_id max_comments st = (Ret fetched, st') →
  dicts_resolved fetched.
Proof.
  intros Hget.
  pose proof (get_comments_Ret_video_id _ _ _ _ _ Hget) as Hv.
  assert (replies_resolved fetched) as Hr.
  { rewrite (get_comments_Ret_inv _ _ _ _ _ Hget).
    destruct (slice_to_prefix (get_comments_try video_id max_comments st).1.1
                max_comments) as [k ->].
    apply replies_resolved_take, get_comments_try_resolved. }
  intros i r Hi. destruct (Hr i r Hi) as [?|(j & top & Hj & Htop & ? & ?)]; [by left|].
  right. exists j, top. repeat split; try done.
  rewrite (Forall_lookup_1 _ _ _ _ Hv Htop). symmetry.
  exact (Forall_lookup_1 _ _ _ _ Hv Hi).
Qed.

(** What the loop over the videos has done when it returns. *)
Lemma fetch_comments_Ret video_ids max_comments :
  ∀ comments_raw st fetched st',
  fetch_comments video_ids max_comments comments_raw st = (Ret fetched, st') →
  ∃ new, fetched = comments_raw ++ new ∧
    Forall (λ c, CommentDict.video_id c ∈ video_ids) new ∧
    ((0 ≤ max_comments)%Z → length new ≤ length video_ids * Z.to_nat max_comments) ∧
    (dicts_resolved comments_raw → dicts_resolved fetched) ∧
    length (trace st') = length (trace st) + length video_ids ∧
    limiter_calls st' = limiter_calls st.
Proof.
  induction video_ids as [|video_id video_ids IH]; intros comments_raw st fetched st'.
  - intros [= <- <-]. exists []. rewrite app_nil_r. simpl.
    split; [done|]. split; [done|]. split; [lia|]. split; [done|]. split; [lia|done].
  - rewrite fetch_comments_S.
    destruct (get_comments_state video_id max_comments st) as (_ & Hlim & Htr).
    destruct (get_comments video_id max_comments st) as [[got| |] st1] eqn:Hget;
      [|done..].
    intros Hrun. apply IH in Hrun as (new & -> & Hin & Hlen & Hres & Htrace & Hl).
    simpl in Hlim, Htr. exists (got ++ new). split; [by rewrite (assoc_L (++))|].
    split; [|split; [|split; [|split]]].
    + apply Forall_app. split.
      * eapply Forall_impl; [exact (get_comments_Ret_video_id _ _ _ _ _ Hget)|].
        intros c ->. apply list_elem_of_here.
      * eapply Forall_impl; [exact Hin|]. intros c Hc. by apply list_elem_of_further.
    + intros Hm. rewrite length_app. specialize (Hlen Hm).
      assert (Z.of_nat (length got) ≤ max_comments)%Z as Hgot.
      { rewrite (get_comments_Ret_inv _ _ _ _ _ Hget). by apply slice_to_length. }
      simpl. lia.
    + intros Hc. apply Hres, dicts_resolved_app; [done|].
      by eapply get_comments_dicts_resolved.
    + rewrite Htrace, Htr. unfold after_comment_request. simpl.
      rewrite length_app. simpl. lia.
    + by rewrite Hl, Hlim.
Qed.

(** The stages of a run of [fetch_data] that returns. *)
Lemma fetch_data_Ret_inv fuel channel_url max_comments st videos comments st' :
  fetch_data fuel channel_url max_comments st = (Ret (videos, comments), st') →
  ∃ handle channel_id video_ids videos_raw validated comments_raw st1 st2 st3,
    get_channel_id handle st = (Ret channel_id, st1) ∧
    get_videos fuel channel_id st1 = (Ret video_ids, st2) ∧
    get_video_details video_ids st2 = (Ret videos_raw, st3) ∧
    for_each Video_validate videos_raw = Ret validated ∧
    fetch_comments video_ids max_comments [] st3 = (Ret comments_raw, st') ∧
    for_each (λ c, Comment_naive <$> Comment_validate c) comments_raw
    = Ret comments ∧
    videos_naive validated = Ret videos.
Proof.
  intros Hrun. unfold fetch_data in Hrun.
  apply M_bind_Ret_inv in Hrun as (handle & s0 & [_ ->]%lift_Ret_inv & Hrun).
  apply M_bind_Ret_inv in Hrun as (input & s0 & [_ ->]%lift_Ret_inv & Hrun).
  apply M_bind_Ret_inv in Hrun as (channel_id & st1 & Hch & Hrun).
  unfold assemble in Hrun.
  apply M_bind_Ret_inv in Hrun as (video_ids & st2 & Hids & Hrun).
  apply M_bind_Ret_inv in Hrun as (videos_raw & st3 & Hraw & Hrun).
  apply M_bind_Ret_inv in Hrun as (validated & s3 & [Hval ->]%lift_Ret_inv & Hrun).
  apply M_bind_Ret_inv in Hrun as (comments_raw & st4 & Hcom & Hrun).
  apply M_bind_Ret_inv in Hrun as (rows & s4 & [Hrows ->]%lift_Ret_inv & Hrun).
  apply M_bind_Ret_inv in Hrun as (naive & s5 & [Hnaive ->]%lift_Ret_inv & Hrun).
  injection Hrun as <- <- <-.
  by exists (YouTubeChannelInput.handle input), channel_id, video_ids, videos_raw,
            validated, comments_raw, st1, st2, st3.
Qed.

Lemma Video_validate_ok raw v : Video_validate raw = Ret v → Video_ok v.
Proof.
  unfold Video_validate, Video_ok.
  destruct (as_str (VideoDict.video_id raw)) as [video_id|]; [|done].
  destruct (as_str (VideoDict.title raw)); [|done].
  destruct (as_optional_str (VideoDict.description raw)); [|done].
  destruct (as_str (VideoDict.duration raw)); [|done].
  destruct (as_str (VideoDict.thumbnail_url raw)); [|done].
  destruct (_ && _) eqn:Hok; [|done]. intros [= <-]. simpl.
  unfold length_is_11, ge_0 in Hok.
  repeat (apply andb_prop in Hok as [Hok ?]).
  repeat match goal with
         | Hle : (_ <=? _)%Z = true |- _ => apply Z.leb_le in Hle
         | Hle : (_ <=? _)%nat = true |- _ => apply Nat.leb_le in Hle
         end.
  repeat split; try done. lia.
Qed.

Lemma Comment_validate_fields raw c :
  Comment_naive <$> Comment_validate raw = Ret c →
  CommentDict.video_id raw = JStr (Comment.video_id c) ∧
  CommentDict.comment_id raw = JStr (Comment.comment_id c) ∧
  as_optional_str (CommentDict.reply_to raw) = Some (Comment.reply_to c) ∧
  Comment_ok c.
Proof.
  intros (c' & Hc & ->)%fmap_Ret_inv. revert Hc.
  unfold Comment_validate, Comment_ok.
  destruct (CommentDict.video_id raw) as [| | |video_id| |]; try done.
  destruct (CommentDict.comment_id raw) as [| | |comment_id| |]; try done.
  simpl. destruct (as_str (CommentDict.text raw)); [|done].
  destruct (as_str (CommentDict.author raw)); [|done].
  destruct (as_optional_str (CommentDict.reply_to raw)); [|done].
  destruct (_ && _) eqn:Hok; [|done]. intros [= <-]. simpl.
  unfold length_is_11, ge_0 in Hok.
  repeat (apply andb_prop in Hok as [Hok ?]).
  repeat match goal with
         | Hle : (_ <=? _)%Z = true |- _ => apply Z.leb_le in Hle
         | Hle : (_ <=? _)%nat = true |- _ => apply Nat.leb_le in Hle
         end.
  repeat split; try done. lia.
Qed.

(** The two collections returned by [fetch_data] satisfy the constraints
    of the pydantic models: every [video_id] has 11 characters and every
    counter is at least zero. *)
Theorem fetch_data_records_valid fuel channel_url max_comments st
    videos comments st' :
  fetch_data fuel channel_url max_comments st = (Ret (videos, comments), st') →
  Forall Video_ok videos ∧ Forall Comment_ok comments.
Proof.
  intros Hrun. apply fetch_data_Ret_inv in Hrun
    as (handle & channel_id & video_ids & videos_raw & validated & comments_raw
        & st1 & st2 & st3 & _ & _ & _ & Hval & _ & Hrows & Hnaive).
  split.
  - assert (videos = Video_naive <$> validated) as ->
      by (destruct validated; [done|by injection Hnaive]).
    apply Forall_fmap. apply for_each_Ret in Hval.
    eapply Forall2_Forall_r; [exact Hval|]. apply Forall_true.
    intros raw v Hv. by apply Video_validate_ok in Hv.
  - apply for_each_Ret in Hrows. eapply Forall2_Forall_r; [exact Hrows|].
    apply Forall_true. intros raw c Hc.
    by apply Comment_validate_fields in Hc as (_ & _ & _ & Hok).
Qed.

Lemma rows_resolved_validated comments_raw comments :
  Forall2 (λ raw c, Comment_naive <$> Comment_validate raw = Ret c)
          comments_raw comments →
  dicts_resolved comments_raw → rows_resolved comments.
Proof.
  intros Hval Hres i c parent Hi Hparent.
  destruct (Forall2_lookup_r _ _ _ _ _ Hval Hi) as (raw & Hraw & Hc).
  apply Comment_validate_fields in Hc as (Hvid & _ & Hreply & _).
  destruct (Hres i raw Hraw) as [Hnull|(j & top & Hj & Htop & Hnull & Hid & Hvideo)].
  - rewrite Hnull, Hparent in Hreply. done.
  - destruct (Forall2_lookup_l _ _ _ _ _ Hval Htop) as (row & Hrow & Hr).
    apply Comment_validate_fields in Hr as (Hvid' & Hid' & Hreply' & _).
    exists j, row. split; [done|]. split; [done|].
    rewrite Hnull in Hreply'. rewrite Hid' in Hid. rewrite <-Hid, Hparent in Hreply.
    rewrite Hvid, Hvid' in Hvideo.
    split; [by injection Hreply'|]. split; [by injection Hreply|by injection Hvideo].
Qed.

(** In the comment collection returned by [fetch_data], a row with a
    [reply_to] answers a row before it that is a top-level comment of the
    same video and has that [comment_id]. *)
Theorem fetch_data_replies_resolved fuel channel_url max_comments st
    videos comments st' :
  fetch_data fuel channel_url max_comments st = (Ret (videos, comments), st') →
  rows_resolved comments.
Proof.
  intros Hrun. apply fetch_data_Ret_inv in Hrun
    as (handle & channel_id & video_ids & videos_raw & validated & comments_raw
        & st1 & st2 & st3 & _ & _ & _ & _ & Hcom & Hrows & _).
  apply fetch_comments_Ret in Hcom as (new & _ & _ & _ & Hres & _).
  apply for_each_Ret in Hrows.
  eapply rows_resolved_validated; [exact Hrows|]. apply Hres, dicts_resolved_nil.
Qed.



(** [fetch_data] sends nothing when its input is refused: a URL that is
    not an [HttpUrl], or one that ends in ["@"] and so leaves an empty
    handle, raises the validation error of [YouTubeChannelInput] with the
    state untouched. *)
Theorem fetch_data_rejects_input fuel channel_url max_comments st :
  valid_http_url channel_url = false ∨ (∃ pre, channel_url = pre +:+ "@") →
  fetch_data fuel channel_url max_comments st
  = (Raise (ValidationError "YouTubeChannelInput"), st).
Proof.
  intros Hbad. unfold fetch_data, index_last.
  destruct (last (str_split "@" channel_url)) as [handle|] eqn:Hlast;
    [|by apply last_None, str_split_nonempty in Hlast].
  rewrite (M_bind_run _ _ st handle st eq_refl).
  unfold YouTubeChannelInput_validate.
  destruct Hbad as [Hurl|[pre ->]].
  - by rewrite Hurl.
  - rewrite (last_str_split_suffix "@" pre "" eq_refl) in Hlast.
    injection Hlast as <-. simpl. by rewrite andb_false_r.
Qed.

(** A channel without videos makes [fetch_data] fail: when the
    enumeration returns no identifier, no details and no comments are
    requested, and selecting the [published_date] column of the frame
    built from no rows raises [KeyError]. *)
Theorem fetch_data_empty_channel fuel channel_url max_comments st
    handle channel_id st1 st2 :
  valid_http_url channel_url = true →
  last (str_split "@" channel_url) = Some handle → handle ≠ "" →
  get_channel_id handle st = (Ret channel_id, st1) →
  get_videos fuel channel_id st1 = (Ret [], st2) →
  fetch_data fuel channel_url max_comments st
  = (Raise (KeyError (JStr "published_date")), st2).
Proof.
  intros Hurl Hlast Hne Hch Hids. unfold fetch_data, index_last.
  rewrite Hlast, (M_bind_run _ _ st handle st eq_refl).
  unfold YouTubeChannelInput_validate. rewrite Hurl.
  replace (1 <=? String.length handle) with true
    by (by destruct handle).
  simpl.
  rewrite (M_bind_run _ _ st (YouTubeChannelInput.mk channel_url handle) st eq_refl).
  simpl.
  rewrite (M_bind_run _ _ _ _ _ Hch). unfold assemble.
  by rewrite (M_bind_run _ _ _ _ _ Hids).
Qed.
End AssemblerMore.


Lemma fetch_data_records_valid_witness :
  Forall Video_ok [Fixture.video_row] ∧
  Forall Comment_ok [Fixture.top_row; Fixture.reply_row 1; Fixture.reply_row 2].
Proof.
  apply (fetch_data_records_valid 3 "https://www.youtube.com/@go_quest" 5
           (Fixture.start Fixture.script_one_video) _ _
           (fetch_data 3 "https://www.youtube.com/@go_quest" 5
              (Fixture.start Fixture.script_one_video)).2).
  vm_compute; reflexivity.
Defined.

Lemma fetch_data_replies_resolved_witness :
  rows_resolved [Fixture.top_row; Fixture.reply_row 1; Fixture.reply_row 2].
Proof.
  apply (fetch_data_replies_resolved 3 "https://www.youtube.com/@go_quest" 5
           (Fixture.start Fixture.script_one_video) [Fixture.video_row] _
           (fetch_data 3 "https://www.youtube.com/@go_quest" 5
              (Fixture.start Fixture.script_one_video)).2).
  vm_compute; reflexivity.
Defined.


Lemma fetch_data_rejects_input_witness :
  fetch_data 3 "https://www.youtube.com/@" 5
             (Fixture.start Fixture.script_one_video)
  = (Raise (ValidationError "YouTubeChannelInput"),
     Fixture.start Fixture.script_one_video).
Proof.
  apply (fetch_data_rejects_input (W := list reply)). right.
  by exists "https://www.youtube.com/".
Defined.

Lemma fetch_data_empty_channel_witness :
  (fetch_data 3 "https://www.youtube.com/@go_quest" 5
              (Fixture.start Fixture.script_empty_channel)).1
  = Raise (KeyError (JStr "published_date")).
Proof.
  pose proof (fetch_data_empty_channel (W := list reply) 3
                "https://www.youtube.com/@go_quest" 5
                (Fixture.start Fixture.script_empty_channel) "go_quest" (JStr "UC0")
                (get_channel_id "go_quest"
                   (Fixture.start Fixture.script_empty_channel)).2
                (get_videos 3 (JStr "UC0")
                   (get_channel_id "go_quest"
                      (Fixture.start Fixture.script_empty_channel)).2).2) as Hrun.
  rewrite Hrun; [reflexivity|reflexivity|reflexivity|done|..];
    vm_compute; reflexivity.
Defined.

(** ** Further properties: ResponseNormalizer *)

Lemma str_contains_app c (s t : string) :
  str_contains c (s +:+ t) = str_contains c s || str_contains c t.
Proof.
  induction s as [|a s IH]; [done|].
  rewrite str_app_cons. simpl. by rewrite IH, orb_assoc.
Qed.

Lemma str_replace_removes old new s :
  str_contains old new = false →
  str_contains old (str_replace old new s) = false.
Proof.
  intros Hnew. induction s as [|a s IH]; [done|]. simpl.
  destruct (Ascii.eqb a old) eqn:Ha.
  - by rewrite str_contains_app, Hnew, IH.
  - simpl. by rewrite Ha, IH.
Qed.

Lemma str_replace_absent old new s :
  str_contains old s = false → str_replace old new s = s.
Proof.
  induction s as [|a s IH]; [done|]. simpl.
  intros [Ha Hs]%orb_false_iff. by rewrite Ha, (IH Hs).
Qed.

Section NormalizerMore.
Context `{!Platform}.

(** Every ["Z"] of a timestamp is rewritten, wherever it stands: the
    string handed to [fromisoformat] contains none, and a timestamp
    without ["Z"] is handed over as it is. *)
Theorem parse_timestamp_argument s :
  ∃ arg,
    parse_timestamp (JStr s) =
    match fromisoformat arg with
    | Some d => Ret d
    | None => Raise (ValueError "Invalid isoformat string")
    end ∧
    str_contains "Z" arg = false ∧
    (str_contains "Z" s = false → arg = s).
Proof.
  exists (str_replace "Z" UTC_Z s). split; [done|]. split.
  - by apply str_replace_removes.
  - apply str_replace_absent.
Qed.

(** A video of the API that normalizes is accepted by the [Video] model
    exactly when its identifier has 11 characters and none of its three
    counters is negative; otherwise the model raises its validation
    error. *)
Theorem video_resource_validates id title publishedAt duration thumbnail
    (statistics : gmap string json) d views likes comments :
  parse_timestamp (JStr publishedAt) = Ret d →
  py_int (default (JInt 0) (statistics !! "viewCount")) = Ret views →
  py_int (default (JInt 0) (statistics !! "likeCount")) = Ret likes →
  py_int (default (JInt 0) (statistics !! "commentCount")) = Ret comments →
  let validated :=
    _parse_video_response
      (video_resource id title publishedAt duration thumbnail (JObj statistics))
    ≫= Video_validate in
  (String.length id = 11 ∧ (0 ≤ views)%Z ∧ (0 ≤ likes)%Z ∧ (0 ≤ comments)%Z →
   validated = Ret (Video.mk id title (Some "") d views likes comments
                             duration thumbnail)) ∧
  (¬ (String.length id = 11 ∧ (0 ≤ views)%Z ∧ (0 ≤ likes)%Z ∧ (0 ≤ comments)%Z) →
   validated = Raise (ValidationError "Video")).
Proof.
  intros Hd Hv Hl Hc. cbv zeta.
  rewrite (_parse_video_response_run _ _ _ _ _ _ _ _ _ _ Hd Hv Hl Hc), bind_Ret.
  unfold Video_validate. simpl.
  assert (length_is_11 id && ge_0 views && ge_0 likes && ge_0 comments = true ↔
          String.length id = 11 ∧ (0 ≤ views)%Z ∧ (0 ≤ likes)%Z ∧ (0 ≤ comments)%Z)
    as Hiff.
  { unfold length_is_11, ge_0.
    rewrite !andb_true_iff, !Nat.leb_le, !Z.leb_le. lia. }
  destruct (length_is_11 id && ge_0 views && ge_0 likes && ge_0 comments).
  - split; [done|]. intros Hno. destruct Hno. by apply Hiff.
  - split; [|done]. intros Hok. by apply Hiff in Hok.
Qed.
End NormalizerMore.

Lemma parse_timestamp_argument_witness :
  str_contains "Z" "2024-05-01T10:00:00+00:00" = false ∧
  parse_timestamp (JStr "2024-05-01T10:00:00+00:00")
  = Ret (Fixture.date0 0 (Some 0%Z)).
Proof.
  split; [reflexivity|].
  destruct (parse_timestamp_argument (H := Fixture.platform)
              "2024-05-01T10:00:00+00:00") as (arg & -> & _ & Hsame).
  rewrite (Hsame eq_refl). vm_compute. reflexivity.
Defined.

Lemma video_resource_validates_witness :
  _parse_video_response
    (video_resource "v0000000000" "title" "2024-05-01T10:00:00Z" "PT3M" "u"
       (obj [("likeCount", JStr "-3")]))
  ≫= Video_validate
  = Raise (ValidationError "Video").
Proof.
  pose proof (video_resource_validates (H := Fixture.platform)
                "v0000000000" "title" "2024-05-01T10:00:00Z" "PT3M" "u"
                (list_to_map [("likeCount", JStr "-3")])
                (Fixture.date0 0 (Some 0%Z)) 0 (-3) 0) as Hv.
  destruct Hv as [_ Hbad]; [vm_compute; reflexivity..|].
  apply Hbad. intros (_ & _ & Hneg & _). lia.
Defined.

(** ** Further properties: the command line *)

(** The key [setup_cli] returns is never empty, so [YouTubeAPI.__init__]
    accepts it: it is the [--api-key] argument when that is a non-empty
    string and the environment's key otherwise.  [setup_cli] exits with
    code 1 exactly when neither is a non-empty string.  The level of the
    logger, set to DEBUG when the module is loaded, is the same after
    [setup_cli] with and without [--verbose]. *)
Theorem setup_cli_api_key args env_key :
  let r := setup_cli args env_key module_level in
  r.2 = module_level ∧
  match r.1 with
  | Setup_ok api_key channel_url max_comments output_file =>
      api_key ≠ "" ∧ YouTubeAPI_init api_key = Ret () ∧
      (Args.api_key args = Some api_key ∨
       (Args.api_key args = None ∨ Args.api_key args = Some "") ∧
       env_key = Some api_key) ∧
      channel_url = Args.channel_url args ∧
      max_comments = Args.max_comments args ∧
      output_file = Args.output args
  | Setup_exit code =>
      code = 1%Z ∧
      (Args.api_key args = None ∨ Args.api_key args = Some "") ∧
      (env_key = None ∨ env_key = Some "")
  end.
Proof.
  unfold setup_cli, str_or, YouTubeAPI_init.
  destruct (Args.api_key args) as [k|]; [destruct (String.eqb_spec k "") as [->|Hk]|].
  - destruct env_key as [e|]; [destruct (String.eqb_spec e "") as [->|He]|]; simpl.
    + split; [done|]. split; [done|]. split; [by right|by right].
    + split; [by destruct (Args.verbose args)|].
      apply String.eqb_neq in He as He'. rewrite He'.
      repeat split; try done. right. split; [by right|done].
    + split; [done|]. split; [done|]. split; [by right|by left].
  - simpl. apply String.eqb_neq in Hk as Hk'. rewrite Hk'. simpl.
    split; [by destruct (Args.verbose args)|]. rewrite Hk'.
    repeat split; try done. by left.
  - destruct env_key as [e|]; [destruct (String.eqb_spec e "") as [->|He]|]; simpl.
    + split; [done|]. split; [done|]. split; [by left|by right].
    + split; [by destruct (Args.verbose args)|].
      apply String.eqb_neq in He as He'. rewrite He'.
      repeat split; try done. right. split; [by left|done].
    + split; [done|]. split; [done|]. split; [by left|by left].
Qed.



Section MainMore.
Context {W : Type} `{!Service W} `{!Platform}.
Implicit Types (st : state W).


End MainMore.


(** ** Further properties: the pages of the enumeration *)

Section EnumeratorChain.
Context {W : Type} `{!Service W}.
Implicit Types (st : state W) (channel_id token : json).

Lemma get_videos_loop_chained channel_id fuel :
  ∀ videos token st,
  ∃ sent,
    trace (get_videos_loop fuel channel_id videos token st).2 = trace st ++ sent ∧
    chained channel_id token sent.
Proof.
  induction fuel as [|fuel IH]; intros videos token st.
  - exists []. by rewrite app_nil_r.
  - rewrite get_videos_loop_S, get_videos_page_run.
    destruct (execute _ (remote st)) as [[e|response] w]; simpl.
    + exists [(SearchVideoList channel_id 50 token, inl e)]. by destruct e.
    + destruct (page_ids response ≫= _) as [page|e|] eqn:Hpage.
      * destruct (truthy page.2) eqn:Hmore.
        -- match goal with
           | |- context [get_videos_loop fuel channel_id ?vs ?tok ?st1] =>
               destruct (IH vs tok st1) as (sent & -> & Hsent)
           end.
           exists ((SearchVideoList channel_id 50 token, inr response) :: sent).
           simpl. split; [by rewrite <-(assoc_L (++))|]. split; [done|].
           destruct sent as [|s sent]; [done|].
           exists response, page.2. repeat split; try done.
           apply bind_Ret_inv in Hpage as (ids & _ & Hpage).
           by apply bind_Ret_inv in Hpage as (next & -> & [= <-]).
        -- by exists [(SearchVideoList channel_id 50 token, inr response)].
      * exists [(SearchVideoList channel_id 50 token, inr response)]. by destruct e.
      * by exists [(SearchVideoList channel_id 50 token, inr response)].
Qed.

(** The requests [get_videos] sends are all video searches of the channel
    with page size 50: the first without a token, each later one with the
    continuation token of the reply before it. *)
Theorem get_videos_token_chain fuel channel_id st :
  ∃ sent,
    trace (get_videos fuel channel_id st).2 = trace st ++ sent ∧
    chained channel_id JNull sent.
Proof. apply get_videos_loop_chained. Qed.
End EnumeratorChain.
